(** * ColorPages: a shallow embedding of [findColorPages.py]

    The development follows the source file top-down:
    - [Latin1]  : the character classes of Python's [re] on code points 0..255;
    - [Re]      : the backtracking matcher for the regex fragment the program
                  uses, and [findall];
    - [F64]     : binary64 values ([float(...)], the constants 0.8 and 1.2);
    - [Py]      : Python control flow (exceptions, [continue], early
                  [return], the locals of a function) as a small monad;
    - [Color]   : [is_color_page];
    - [Figures] : [extract_figure_info], [has_figure_pattern],
                  [find_figure_pages].
    Then come the vocabulary of the statements ([ColorSpec], [FigureSpec]),
    sample inputs ([Samples]), and the lemmas and theorems: the matcher
    ([ReFacts], [NumberFacts]), the control flow of [is_color_page]
    ([ColorFacts], [ColorClaims]), the pixel tests ([PixelFacts],
    [PixelClaims]) and the figure report ([FigureFacts], [FigureClaims]).
    Further properties of the same functions follow: the image scan
    ([ColorMore]), gray operands ([GrayFacts]), sampling ([SampleFacts]),
    content lists and colorspace names ([ContentFacts]), and the records
    and the report of [find_figure_pages] ([FigureMore]); their vocabulary
    is in [ColorMoreSpec], [ScanMoreSpec] and [FigureMoreSpec].

    Two things are abstracted.  The fractions of the pixel tests are
    compared with [sample_threshold] over exact rationals, where numpy
    works in float64; [PixelFacts.default_threshold_binary64] compares the
    two on the default threshold.  Page text is modelled on the code
    points 0..255, like the content stream. *)

From Stdlib Require Import Ascii String.
From Stdlib Require Import List ZArith QArith Bool Lia Arith.
From Stdlib Require Import Floats.SpecFloat.
From Stdlib Require Import Sorting.Sorted Sorting.Permutation.
Import ListNotations.

Close Scope Q_scope.
Open Scope Z_scope.

(** Text is a list of characters.  A content stream is decoded with
    [decode('latin-1', errors='ignore')], so its characters are exactly the
    256 values of [ascii]; extracted page text is modelled on the same
    code points. *)
Definition chars := list ascii.

Definition str (s : string) : chars := list_ascii_of_string s.

(** ** Character classes of [re] (str patterns) restricted to 0..255 *)
Module Latin1.

Definition code (c : ascii) : N := N_of_ascii c.

Definition between (lo hi : N) (c : ascii) : bool :=
  (lo <=? code c)%N && (code c <=? hi)%N.

(** [[0-9]] and, below 256, also [\d]. *)
Definition is_digit (c : ascii) : bool := between 48 57 c.

(** [\s], which is also what [str.strip()] removes: TAB LF VT FF CR,
    FS GS RS US, SPACE, NEL and NBSP. *)
Definition is_space (c : ascii) : bool :=
  between 9 13 c || between 28 32 c || (code c =? 133)%N || (code c =? 160)%N.

(** [\w]: [str.isalnum()] or underscore. *)
Definition is_word (c : ascii) : bool :=
  is_digit c || between 65 90 c || between 97 122 c || (code c =? 95)%N
  || (code c =? 170)%N || between 178 179 c || (code c =? 181)%N
  || between 185 186 c || between 188 190 c
  || between 192 214 c || between 216 246 c || between 248 255 c.

Definition is_char (a : ascii) (c : ascii) : bool := Ascii.eqb a c.

(** An ASCII letter of a pattern compiled with [re.IGNORECASE] matches
    its two cases; no code point of 128..255 folds to an ASCII letter. *)
Definition lower (c : ascii) : N :=
  if between 65 90 c then (code c + 32)%N else code c.

Definition is_nocase (a : ascii) (c : ascii) : bool := (lower a =? lower c)%N.

(** [[^\n\r]] *)
Definition not_newline (c : ascii) : bool :=
  negb ((code c =? 10)%N || (code c =? 13)%N).

End Latin1.

(** ** The regex fragment and its backtracking semantics *)
Module Re.

(** Every quantifier of the program's patterns applies to a single
    character class and is greedy. *)
Inductive regex : Type :=
| Chr (p : ascii -> bool)        (* one character of a class *)
| Opt (p : ascii -> bool)        (* p?  *)
| Star (p : ascii -> bool)       (* p*  *)
| Plus (p : ascii -> bool)       (* p+  *)
| Bnd                            (* \b  *)
| Cat (r1 r2 : regex)
| Grp (r : regex)                (* ( r ) *)
| Eps.                           (* the empty pattern *)

(** A position in the subject: the character before it, what is left, and
    the groups closed so far. *)
Record mstate : Type := MState {
  prev : option ascii;
  rest : chars;
  caps : list chars
}.

Definition word_before (pv : option ascii) : bool :=
  match pv with Some c => Latin1.is_word c | None => false end.

Definition word_after (s : chars) : bool :=
  match s with c :: _ => Latin1.is_word c | [] => false end.

(** All the ways [p*] can match at the head of [s], longest first. *)
Fixpoint star (p : ascii -> bool) (pv : option ascii) (s : chars)
  : list (option ascii * chars) :=
  match s with
  | c :: s' => if p c then star p (Some c) s' ++ [(pv, s)] else [(pv, s)]
  | [] => [(pv, s)]
  end.

Definition moved (st : mstate) (x : option ascii * chars) : mstate :=
  MState (fst x) (snd x) (caps st).

(** [run r st]: every way [r] matches at [st], in the order in which a
    backtracking matcher tries them.  The head is the match [re] reports. *)
Fixpoint run (r : regex) (st : mstate) : list mstate :=
  match r with
  | Chr p =>
      match rest st with
      | c :: s' => if p c then [MState (Some c) s' (caps st)] else []
      | [] => []
      end
  | Opt p =>
      match rest st with
      | c :: s' => if p c then [MState (Some c) s' (caps st); st] else [st]
      | [] => [st]
      end
  | Star p => map (moved st) (star p (prev st) (rest st))
  | Plus p =>
      match rest st with
      | c :: s' => if p c then map (moved st) (star p (Some c) s') else []
      | [] => []
      end
  | Bnd => if xorb (word_before (prev st)) (word_after (rest st)) then [st] else []
  | Cat r1 r2 => flat_map (run r2) (run r1 st)
  | Grp r1 =>
      map (fun st' =>
             MState (prev st') (rest st')
                    (caps st' ++ [firstn (length (rest st) - length (rest st'))%nat (rest st)]))
          (run r1 st)
  | Eps => [st]
  end.

Definition match_at (r : regex) (pv : option ascii) (s : chars) : option mstate :=
  hd_error (run r (MState pv s [])).

(** [re.findall]: leftmost matches, not overlapping.  [skip] counts the
    characters of the last match still to be stepped over; an empty match
    is recorded and the scan moves one character on. *)
Fixpoint scan (r : regex) (pv : option ascii) (s : chars) (skip : nat)
  : list (list chars) :=
  match skip with
  | S k =>
      match s with
      | [] => []
      | c :: s' => scan r (Some c) s' k
      end
  | O =>
      match match_at r pv s with
      | Some st' =>
          caps st' ::
          match s with
          | [] => []
          | c :: s' => scan r (Some c) s' (pred (length s - length (rest st'))%nat)
          end
      | None =>
          match s with
          | [] => []
          | c :: s' => scan r (Some c) s' 0
          end
      end
  end.

Fixpoint ngroups (r : regex) : nat :=
  match r with
  | Cat r1 r2 => (ngroups r1 + ngroups r2)%nat
  | Grp r1 => S (ngroups r1)
  | _ => O
  end.

(** An element of the list [re.findall] returns: the tuple of the groups
    when the pattern has several, and a plain string (the group, or the
    whole match) when it has one or none. *)
Inductive found : Type :=
| Tuple (groups : list chars)
| Str (s : chars).

Definition findall (r : regex) (s : chars) : list found :=
  match ngroups r with
  | O => map (fun cs => Str (hd [] cs)) (scan (Grp r) None s 0)
  | 1%nat => map (fun cs => Str (hd [] cs)) (scan r None s 0)
  | _ => map Tuple (scan r None s 0)
  end.

(** [len(m)] and [m[i]] on such an element: a string is indexed by
    character. *)
Definition len (m : found) : nat :=
  match m with Tuple gs => length gs | Str s => length s end.

Definition item (m : found) (i : nat) : option chars :=
  match m with
  | Tuple gs => nth_error gs i
  | Str s => option_map (fun c => [c]) (nth_error s i)
  end.

(** A literal word; [ign] is [re.IGNORECASE]. *)
Fixpoint lit (ign : bool) (w : chars) : regex :=
  match w with
  | [] => Eps
  | c :: w' => Cat (Chr (if ign then Latin1.is_nocase c else Latin1.is_char c)) (lit ign w')
  end.

End Re.

(** ** binary64 *)
Module F64.

Definition prec : Z := 53.
Definition emax : Z := 1024.

Definition float := spec_float.

(** The correctly rounded quotient of two non-negative integers. *)
Definition of_ratio (n d : Z) : float :=
  match n, d with
  | Zpos pn, Zpos pd => SFdiv prec emax (S754_finite false pn 0) (S754_finite false pd 0)
  | Z0, Zpos _ => S754_zero false
  | _, _ => S754_nan
  end.

Definition of_Z (n : Z) : float := binary_normalize prec emax n 0 false.

Definition mul : float -> float -> float := SFmul prec emax.
Definition ltb : float -> float -> bool := SFltb.
Definition eqb : float -> float -> bool := SFeqb.

Definition digit_val (c : ascii) : Z := Z.of_N (Latin1.code c) - 48.

Definition digits_val (ds : chars) : Z :=
  fold_left (fun acc c => 10 * acc + digit_val c) ds 0.

Fixpoint split_dot (s : chars) : chars * option chars :=
  match s with
  | [] => ([], None)
  | c :: s' =>
      if Latin1.is_char "." c then ([], Some s')
      else let '(i, f) := split_dot s' in (c :: i, f)
  end.

(** [float(s)] for the strings the scanner can hand to it: digits with at
    most one point.  [None] is [ValueError] (no digit at all, as in
    [float('.')], or a character that is not a digit). *)
Definition py_float (s : chars) : option float :=
  let '(i, f) := split_dot s in
  let f := match f with Some f => f | None => [] end in
  if forallb Latin1.is_digit (i ++ f) && negb (length (i ++ f) =? 0)%nat
  then Some (of_ratio (digits_val (i ++ f)) (10 ^ Z.of_nat (length f)))
  else None.

End F64.

(** ** Python control flow *)
Module Py.

(** The result of a call into a library (PyPDF2, PIL) or into a function of
    the program: a value, or an exception of class [Exception]. *)
Inductive res (A : Type) : Type :=
| Ok (a : A)
| Exn.
Arguments Ok {A} a.
Arguments Exn {A}.

(** How a block of statements ends. *)
Inductive outcome (R A : Type) : Type :=
| Normal (a : A)        (* ran to its end *)
| Continued             (* [continue] *)
| Returned (r : R)      (* [return r] *)
| Raised.               (* an exception is propagating *)
Arguments Normal {R A} a.
Arguments Continued {R A}.
Arguments Returned {R A} r.
Arguments Raised {R A}.

(** A block over the function's locals [S], in a function returning [R]. *)
Definition M (S R A : Type) : Type := S -> outcome R A * S.

Section Ops.
Context {S R : Type}.

Definition ret {A} (a : A) : M S R A := fun s => (Normal a, s).

Definition bind {A B} (m : M S R A) (k : A -> M S R B) : M S R B :=
  fun s =>
    match m s with
    | (Normal a, s') => k a s'
    | (Continued, s') => (Continued, s')
    | (Returned r, s') => (Returned r, s')
    | (Raised, s') => (Raised, s')
    end.

Definition raise {A} : M S R A := fun s => (Raised, s).
Definition return_ {A} (r : R) : M S R A := fun s => (Returned r, s).
Definition continue_ {A} : M S R A := fun s => (Continued, s).
Definition pass : M S R unit := ret tt.
Definition get : M S R S := fun s => (Normal s, s).
Definition put (s : S) : M S R unit := fun _ => (Normal tt, s).

Definition lift {A} (x : res A) : M S R A :=
  match x with Ok a => ret a | Exn => raise end.

(** [try: body  except: handler].  The locals assigned before the
    exception keep their values. *)
Definition try_ {A} (body handler : M S R A) : M S R A :=
  fun s =>
    match body s with
    | (Raised, s') => handler s'
    | o => o
    end.

(** [for x in xs: body x]. *)
Fixpoint for_each {X} (xs : list X) (body : X -> M S R unit) : M S R unit :=
  match xs with
  | [] => ret tt
  | x :: xs' =>
      fun s =>
        match body x s with
        | (Normal _, s') | (Continued, s') => for_each xs' body s'
        | (Returned r, s') => (Returned r, s')
        | (Raised, s') => (Raised, s')
        end
  end.

(** Calling a function whose body is [m]: the caller sees the returned
    value or the exception. *)
Definition call (m : M S R R) (locals : S) : res R :=
  match fst (m locals) with
  | Normal r | Returned r => Ok r
  | Continued | Raised => Exn
  end.

End Ops.

Declare Scope py_scope.
Delimit Scope py_scope with py.
Notation "x <- m ;; k" := (bind m (fun x => k))
  (at level 61, m at next level, right associativity) : py_scope.
Notation "' pat <- m ;; k" := (bind m (fun x => match x with pat => k end))
  (at level 61, pat pattern, m at next level, right associativity) : py_scope.
Notation "m ;; k" := (bind m (fun _ => k))
  (at level 61, right associativity) : py_scope.

(** Unfolds the operations of the monad in the goal and the hypotheses. *)
Ltac py := cbv [bind ret raise return_ continue_ pass get put lift try_] in *.

End Py.

(** ** [is_color_page] *)
Module Color.
Import Py.
Local Open Scope py_scope.

(** *** The page object, as far as [is_color_page] and
    [extract_figure_info] look at it *)

(** One pixel of [np.array(img)] for an image of mode RGB (uint8). *)
Record pixel : Type := Pixel { red : Z; green : Z; blue : Z }.

(** An H x W x 3 array, row by row. *)
Definition raster : Type := list (list pixel).

Inductive pil_mode : Type :=
| ModeRGB | ModeRGBA | ModeCMYK | ModeLAB | ModeP
| ModeOther.            (* '1', 'L', 'LA', 'I', 'F', ... *)

(** The image [Image.open] gives.  [pil_rgb] is the array the code reaches
    for it: [np.array(img)] for mode RGB, [np.array(img.convert('RGB'))]
    for RGBA, CMYK, LAB and P; [Exn] when loading or converting raises. *)
Record pil : Type := Pil { pil_mode_of : pil_mode; pil_rgb : res raster }.

(** [obj.get('/ColorSpace')] with what [str] makes of it. *)
Inductive colorspace : Type :=
| CsNone                              (* absent, or falsy *)
| CsName (name : string)              (* a single object *)
| CsArray (first : string).           (* a non-empty list; [first] is [str(colorspace[0])] *)

Record image : Type := Image {
  img_size : res (Z * Z);             (* [obj.get('/Width', 0)], [obj.get('/Height', 0)] *)
  img_colorspace : res colorspace;
  img_open : res (option pil)         (* [obj.get_data()] then [Image.open]; [None]: empty data *)
}.

Inductive xobject : Type :=
| XImage (obj : image)                (* [/Subtype] is [/Image] *)
| XOther.

(** [page['/Contents']] *)
Inductive contents : Type :=
| Stream (data : res chars)                       (* it has [get_data] *)
| StreamList (items : list (option (res chars)))  (* a list; [None]: an item without [get_data] *)
| OtherContents.

(** A PyPDF2 page object; it has the method [extract_text], so the test
    [hasattr(page, 'extract_text')] holds. *)
Record page : Type := Page {
  extract_text : res (option chars);        (* [page.extract_text()]; [None] is Python's [None] *)
  page_contents : option (res contents);    (* [None]: ['/Contents' not in page] *)
  (* [page.get('/Resources', {})] and ['/XObject' in resources]:
     [Ok None] when there is no [/XObject]; inside, the dictionary itself
     and each of its entries may fail to resolve *)
  page_xobjects : res (option (res (list (res xobject))))
}.

(** *** Vector colours in the content stream *)

Definition number : Re.regex :=
  Re.Cat (Re.Star Latin1.is_digit)
         (Re.Cat (Re.Opt (Latin1.is_char ".")) (Re.Plus Latin1.is_digit)).

Definition then_ws (r k : Re.regex) : Re.regex :=
  Re.Cat r (Re.Cat (Re.Plus Latin1.is_space) k).

(** The operator that ends a pattern. *)
Definition op (c : string) : Re.regex := Re.lit false (str c).

(** [\b(N)\s+(N)\s+(N)\s+rg] with N = [[0-9]*\.?[0-9]+] *)
Definition rgb_pattern (c : string) : Re.regex :=
  Re.Cat Re.Bnd
    (then_ws (Re.Grp number) (then_ws (Re.Grp number) (then_ws (Re.Grp number) (op c)))).

(** [\b(N)\s+g] *)
Definition gray_pattern (c : string) : Re.regex :=
  Re.Cat Re.Bnd (then_ws (Re.Grp number) (op c)).

Definition color_patterns : list Re.regex :=
  [rgb_pattern "rg"; rgb_pattern "RG"; gray_pattern "g"; gray_pattern "G"].

(** [float(match[i])]: [IndexError] or [ValueError] raise. *)
Definition float_item {S R} (m : Re.found) (i : nat) : M S R F64.float :=
  match Re.item m i with
  | Some s => match F64.py_float s with Some x => ret x | None => raise end
  | None => raise
  end.

(** The body of [for match in matches]. *)
Definition check_match {S} (m : Re.found) : M S bool unit :=
  if (Re.len m =? 3)%nat then
    r <- float_item m 0 ;;
    g <- float_item m 1 ;;
    b <- float_item m 2 ;;
    if negb (F64.eqb r g && F64.eqb g b) then return_ true else pass
  else if (Re.len m =? 1)%nat then
    gray_val <- float_item m 0 ;;
    pass                                  (* the test on [gray_val] only guards a [pass] *)
  else pass.

(** Lines 26-32: the items of a list that have [get_data] are
    concatenated in order. *)
Fixpoint concat_streams (items : list (option (res chars))) (content_data : chars)
  : res chars :=
  match items with
  | [] => Ok content_data
  | None :: items' => concat_streams items' content_data
  | Some (Ok data) :: items' => concat_streams items' (content_data ++ data)
  | Some Exn :: _ => Exn
  end.

(** [content_data]; [Ok None] is the name left unbound, when the object is
    neither a stream nor a list. *)
Definition read_contents (content : contents) : res (option chars) :=
  match content with
  | Stream d => match d with Ok data => Ok (Some data) | Exn => Exn end
  | StreamList items =>
      match concat_streams items [] with
      | Ok data => Ok (Some data)
      | Exn => Exn
      end
  | OtherContents => Ok None
  end.

Definition scan_patterns {S} (content_data : option chars) : M S bool unit :=
  for_each color_patterns (fun pattern =>
    matches <- match content_data with
               | Some s => ret (Re.findall pattern s)
               | None => raise                       (* NameError *)
               end ;;
    for_each matches check_match).

Definition scan_vectors {S} (pg : page) : M S bool unit :=
  match page_contents pg with
  | Some c =>
      try_ (content <- lift c ;;
            content_data <- lift (read_contents content) ;;
            scan_patterns content_data)
           pass
  | None => pass
  end.

(** *** Pixel statistics of one decoded image *)

(** [a[::step]] *)
Fixpoint stride_from {A} (k : nat) (step : nat) (l : list A) : list A :=
  match l with
  | [] => []
  | x :: l' =>
      match k with
      | O => x :: stride_from (pred step) step l'
      | S k' => stride_from k' step l'
      end
  end.

Definition stride {A} (step : Z) (l : list A) : list A :=
  stride_from 0 (Z.to_nat step) l.

Definition shape0 (a : raster) : Z := Z.of_nat (length a).
Definition shape1 (a : raster) : Z :=
  match a with [] => 0 | row :: _ => Z.of_nat (length row) end.

(** Images of more than 1,000,000 pixels are sampled:
    [img_array[::step, ::step]]. *)
Definition sample (a : raster) : raster :=
  if shape0 a * shape1 a >? 1000000 then
    let step := Z.max 1 (Z.min (shape0 a) (shape1 a) / 100) in
    map (stride step) (stride step a)
  else a.

(** [np.sum(mask)] for a boolean mask computed pixel by pixel. *)
Definition count (mask : pixel -> bool) (a : raster) : Z :=
  fold_right (fun row n => Z.of_nat (length (filter mask row)) + n) 0 a.

(** [n / total_pixels > threshold].  The threshold is a float64 in the
    source; the model takes the rational it denotes and compares with the
    exact quotient.  numpy gives [nan] for 0/0 and [inf] for n/0, neither
    raises. *)
Definition exceeds (n total : Z) (threshold : Q) : bool :=
  match total with
  | Zpos t => match Qcompare threshold (n # t) with Lt => true | _ => false end
  | _ => 0 <? n
  end.

(** Method 1: some pair of channels differs by more than [color_threshold]. *)
Definition differs (color_threshold : Z) (p : pixel) : bool :=
  (Z.abs (red p - green p) >? color_threshold)
  || (Z.abs (red p - blue p) >? color_threshold)
  || (Z.abs (green p - blue p) >? color_threshold).

(** Method 2: [~((r == g) & (g == b))] *)
Definition non_grayscale (p : pixel) : bool :=
  negb ((red p =? green p) && (green p =? blue p)).

(** The float64 literals 0.8 and 1.2, and [x > y * c] on a uint8 [x] and
    the float64 product. *)
Definition c0_8 : F64.float := F64.of_ratio 8 10.
Definition c1_2 : F64.float := F64.of_ratio 12 10.

Definition gt_scaled (x y : Z) (c : F64.float) : bool :=
  F64.ltb (F64.mul (F64.of_Z y) c) (F64.of_Z x).

(** Method 3: [(r > g * 0.8) & (g > b * 1.2) & (r > 100)] *)
Definition yellow_mask (p : pixel) : bool :=
  gt_scaled (red p) (green p) c0_8 && gt_scaled (green p) (blue p) c1_2
  && (red p >? 100).

(** Method 4: [(b > r * 1.2) & (b > g * 1.2) & (b > 100)] *)
Definition blue_mask (p : pixel) : bool :=
  gt_scaled (blue p) (red p) c1_2 && gt_scaled (blue p) (green p) c1_2
  && (blue p >? 100).

Section Thresholds.
Variable color_threshold : Z.
Variable sample_threshold : Q.

Definition total_pixels (a : raster) : Z := shape0 a * shape1 a.

Definition test1 (a : raster) : bool :=
  exceeds (count (differs color_threshold) a) (total_pixels a) sample_threshold.
Definition test2 (a : raster) : bool :=
  exceeds (count non_grayscale a) (total_pixels a) (sample_threshold * (1 # 2))%Q.
Definition test3 (a : raster) : bool :=
  exceeds (count yellow_mask a) (total_pixels a) (sample_threshold * (1 # 10))%Q.
Definition test4 (a : raster) : bool :=
  exceeds (count blue_mask a) (total_pixels a) (sample_threshold * (1 # 10))%Q.

(** Lines 106-149: the four tests on the (sampled) array, each returning
    [True] at once. *)
Definition analyze {S} (img_array : raster) : M S bool unit :=
  let img_array := sample img_array in
  if test1 img_array then return_ true else
  if test2 img_array then return_ true else
  if test3 img_array then return_ true else
  if test4 img_array then return_ true else pass.

(** *** Embedded images *)

Definition contains (sub s : string) : bool :=
  match String.index 0 sub s with Some _ => true | None => false end.

Definition declares_color (cs_name : string) : bool :=
  existsb (fun cs => contains cs cs_name) ["RGB"; "Lab"; "DeviceRGB"]%string.

(** Lines 80-89. *)
Definition check_colorspace {R} (cs : colorspace) : M bool R unit :=
  match cs with
  | CsNone => pass
  | CsArray cs_name | CsName cs_name =>
      if declares_color cs_name then put true else pass
  end.

(** Lines 93-149: decode, normalise the mode, analyse.  The array of an
    RGB image has shape (H, W, 3), so the test on the shape at line 106
    holds. *)
Definition analyze_data (obj : image) : M bool bool unit :=
  data <- lift (img_open obj) ;;
  match data with
  | None => pass
  | Some img =>
      match pil_mode_of img with
      | ModeOther => pass
      | ModeRGB | ModeRGBA | ModeCMYK | ModeLAB | ModeP =>
          img_array <- lift (pil_rgb img) ;;
          analyze img_array
      end
  end.

(** The body of [for obj_name in xObject] for an image object
    (lines 71-158). *)
Definition inspect_image (obj : image) : M bool bool unit :=
  try_ ('(width, height) <- lift (img_size obj) ;;
        if (width =? 0) || (height =? 0) then continue_ else
        colorspace <- lift (img_colorspace obj) ;;
        check_colorspace colorspace ;;
        try_ (analyze_data obj)
             (has_color <- get ;;
              if has_color : bool then return_ true else continue_))
       continue_.

(** Lines 58-160. *)
Definition scan_images (pg : page) : M bool bool unit :=
  resources <- lift (page_xobjects pg) ;;
  match resources with
  | None => pass
  | Some x =>
      try_ (xObject <- lift x ;;
            for_each xObject (fun entry =>
              obj <- lift entry ;;
              match obj with
              | XImage obj => inspect_image obj
              | XOther => pass
              end))
           pass
  end.

Definition is_color_page_body (pg : page) : M bool bool bool :=
  try_ (scan_vectors pg ;; scan_images pg) pass ;;
  has_color <- get ;;
  return_ has_color.

(** [is_color_page(page, color_threshold, sample_threshold)]; the local
    [has_color] starts as [False]. *)
Definition is_color_page (pg : page) : res bool :=
  call (is_color_page_body pg) false.

End Thresholds.

End Color.

(** ** Figures *)
Module Figures.
Import Py.
Import Color.
Local Open Scope py_scope.

(** [Figure\s+(\d+)-(\d+)\.?\s*(L)] with [re.IGNORECASE], where L is
    [[^\n\r]] starred: the rest of the line. *)
Definition figure_pattern : Re.regex :=
  Re.Cat (Re.lit true (str "Figure"))
    (Re.Cat (Re.Plus Latin1.is_space)
    (Re.Cat (Re.Grp (Re.Plus Latin1.is_digit))
    (Re.Cat (Re.Chr (Latin1.is_char "-"))
    (Re.Cat (Re.Grp (Re.Plus Latin1.is_digit))
    (Re.Cat (Re.Opt (Latin1.is_char "."))
    (Re.Cat (Re.Star Latin1.is_space)
            (Re.Grp (Re.Star Latin1.not_newline)))))))).

Fixpoint lstrip (p : ascii -> bool) (s : chars) : chars :=
  match s with
  | c :: s' => if p c then lstrip p s' else s
  | [] => []
  end.

Definition rstrip (p : ascii -> bool) (s : chars) : chars :=
  rev (lstrip p (rev s)).

(** [s.strip()] *)
Definition strip (s : chars) : chars :=
  rstrip Latin1.is_space (lstrip Latin1.is_space s).

(** What [extract_figure_info] returns: [(figure_number, caption)]. *)
Definition figure_info : Type := (chars * chars)%type.

Definition tuple3 {S R} (m : Re.found) : M S R (chars * chars * chars) :=
  match m with
  | Re.Tuple [a; b; c] => ret (a, b, c)
  | _ => raise
  end.

(** The body of [for match in matches] (lines 192-199). *)
Definition record_match {R} (m : Re.found) : M (list figure_info) R unit :=
  '(chapter_num, image_num, caption) <- tuple3 m ;;
  let caption := strip caption in
  match caption with
  | [] => pass
  | _ :: _ =>
      let caption := rstrip (Latin1.is_char ".") caption in
      let figure_number := chapter_num ++ str "-" ++ image_num in
      figures <- get ;;
      put (figures ++ [(figure_number, caption)])
  end.

Definition extract_figure_info_body (pg : page)
  : M (list figure_info) (list figure_info) (list figure_info) :=
  try_ (text <- lift (extract_text pg) ;;
        match text with
        | None | Some [] => figures <- get ;; return_ figures
        | Some text =>
            let matches := Re.findall figure_pattern text in
            for_each matches record_match ;;
            figures <- get ;;
            return_ figures
        end)
       (figures <- get ;; return_ figures).

(** [extract_figure_info(page)]; the local [figures] starts empty. *)
Definition extract_figure_info (pg : page) : res (list figure_info) :=
  call (extract_figure_info_body pg) [].

(** [has_figure_pattern(page)] *)
Definition has_figure_pattern (pg : page) : res bool :=
  match extract_figure_info pg with
  | Ok figures => Ok (0 <? length figures)%nat
  | Exn => Exn
  end.

(** The dictionary appended to [all_figures]. *)
Record figure : Type := Figure {
  figure_number : chars;
  caption : chars;
  pdf_page : Z;
  book_page : Z
}.

(** What is written to the output file, in order; the wording of the lines
    is left out. *)
Inductive report_item : Type :=
| Header (total_pages page_offset : Z) (found in_book in_front : nat)
| Detail (fig : figure)
| FrontMatterTitle
| FrontMatterEntry (fig : figure).

Record locals : Type := Locals {
  figure_pages : list Z;
  all_figures : list figure;
  written : list report_item
}.

Definition modify {R} (f : locals -> locals) : M locals R unit :=
  fun s => (Normal tt, f s).

Definition write {R} (x : report_item) : M locals R unit :=
  modify (fun s => Locals (figure_pages s) (all_figures s) (written s ++ [x])).

(** [s.split(sep)] on one separator character. *)
Fixpoint split (sep : ascii) (s : chars) : list chars :=
  match s with
  | [] => [[]]
  | c :: s' =>
      if Ascii.eqb c sep then [] :: split sep s'
      else match split sep s' with
           | w :: ws => (c :: w) :: ws
           | [] => [[c]]
           end
  end.

(** [int(s)] on the strings [sort_key] gives it, which are groups of
    [\d+]; anything that is not a non-empty run of digits is [ValueError]
    here. *)
Definition py_int (s : chars) : res Z :=
  match s with
  | [] => Exn
  | _ => if forallb Latin1.is_digit s then Ok (F64.digits_val s) else Exn
  end.

(** [int(parts[i])]: [IndexError] or [ValueError] raise. *)
Definition part (parts : list chars) (i : nat) : res Z :=
  match nth_error parts i with
  | Some s => py_int s
  | None => Exn
  end.

Definition sort_key (fig : figure) : res (Z * Z) :=
  let parts := split "-" (figure_number fig) in
  match part parts 0, part parts 1 with
  | Ok a, Ok b => Ok (a, b)
  | _, _ => Exn
  end.

(** Python's order on pairs of integers. *)
Definition key_le (k1 k2 : Z * Z) : bool :=
  (fst k1 <? fst k2) || ((fst k1 =? fst k2) && (snd k1 <=? snd k2)).

Fixpoint insert {A} (x : (Z * Z) * A) (l : list ((Z * Z) * A)) : list ((Z * Z) * A) :=
  match l with
  | [] => [x]
  | y :: l' => if key_le (fst x) (fst y) then x :: l else y :: insert x l'
  end.

(** [sorted(l, key=...)] once the keys are computed: a stable sort. *)
Definition sort_keyed {A} (l : list ((Z * Z) * A)) : list A :=
  map snd (fold_right insert [] l).

Fixpoint with_keys (l : list figure) : res (list ((Z * Z) * figure)) :=
  match l with
  | [] => Ok []
  | fig :: l' =>
      match sort_key fig, with_keys l' with
      | Ok k, Ok ks => Ok ((k, fig) :: ks)
      | _, _ => Exn
      end
  end.

(** [sorted(l, key=sort_key)] *)
Definition sorted_by_key (l : list figure) : res (list figure) :=
  match with_keys l with
  | Ok ks => Ok (sort_keyed ks)
  | Exn => Exn
  end.

(** What [open(pdf_path, 'rb')], [PdfReader] and [open(output_file, 'w')]
    do in the run at hand. *)
Record world : Type := World {
  pdf : res (list (res page));      (* the document, and [pdf_reader.pages[i]] for each i *)
  output_opens : bool
}.

Fixpoint enumerate {A} (i : Z) (l : list A) : list (Z * A) :=
  match l with
  | [] => []
  | x :: l' => (i, x) :: enumerate (i + 1) l'
  end.

Definition book_figures (figs : list figure) : list figure :=
  filter (fun fig => book_page fig >? 0) figs.

Definition front_matter_figures (figs : list figure) : list figure :=
  filter (fun fig => book_page fig <=? 0) figs.

(** [all_figures.append(...)] *)
Definition append_figure {R} (fig : figure) : M locals R unit :=
  modify (fun s => Locals (figure_pages s) (all_figures s ++ [fig]) (written s)).

(** Lines 242-258, for one page. *)
Definition visit_page (page_offset : Z) (entry : Z * res page) : M locals (list Z) unit :=
  let '(page_num, p) := entry in
  pg <- lift p ;;
  let pdf_page_num := page_num + 1 in
  let book_page_num := pdf_page_num - page_offset in
  figures_on_page <- lift (extract_figure_info pg) ;;
  match figures_on_page with
  | [] => pass
  | _ :: _ =>
      modify (fun s => Locals (figure_pages s ++ [book_page_num]) (all_figures s) (written s)) ;;
      for_each figures_on_page (fun fc =>
        append_figure (Figure (fst fc) (snd fc) pdf_page_num book_page_num))
  end.

Definition find_figure_pages_body (w : world) (page_offset : Z)
  : M locals (list Z) (list Z) :=
  try_ (pages <- lift (pdf w) ;;
        let total_pages := Z.of_nat (length pages) in
        for_each (enumerate 0 pages) (visit_page page_offset) ;;
        s <- get ;;
        let book := book_figures (all_figures s) in
        let front := front_matter_figures (all_figures s) in
        (if output_opens w then pass else raise) ;;
        write (Header total_pages page_offset
                      (length (all_figures s)) (length book) (length front)) ;;
        sorted_figures <- lift (sorted_by_key book) ;;
        for_each sorted_figures (fun fig => write (Detail fig)) ;;
        match front with
        | [] => pass
        | _ :: _ =>
            write FrontMatterTitle ;;
            for_each front (fun fig => write (FrontMatterEntry fig))
        end ;;
        return_ (map book_page book))
       (return_ []).

(** [find_figure_pages(pdf_path, output_file, page_offset)]: the value
    returned and the locals at that point. *)
Definition run_find_figure_pages (w : world) (page_offset : Z)
  : outcome (list Z) (list Z) * locals :=
  find_figure_pages_body w page_offset (Locals [] [] []).

Definition find_figure_pages (w : world) (page_offset : Z) : res (list Z) :=
  call (find_figure_pages_body w page_offset) (Locals [] [] []).

Definition final_locals (w : world) (page_offset : Z) : locals :=
  snd (run_find_figure_pages w page_offset).

End Figures.

(** * Vocabulary of the statements *)

(** The words a pattern can consume, without the context conditions of
    [\b]: what a group of the pattern may hold. *)
Fixpoint accepts (r : Re.regex) (w : chars) : Prop :=
  match r with
  | Re.Chr p => exists c, w = [c] /\ p c = true
  | Re.Opt p => w = [] \/ exists c, w = [c] /\ p c = true
  | Re.Star p => forallb p w = true
  | Re.Plus p => w <> [] /\ forallb p w = true
  | Re.Bnd => w = []
  | Re.Cat r1 r2 => exists w1 w2, w = w1 ++ w2 /\ accepts r1 w1 /\ accepts r2 w2
  | Re.Grp r1 => accepts r1 w
  | Re.Eps => w = []
  end.

(** Statements about [is_color_page]. *)
Module ColorSpec.
Import Py Color.

(** A triple found by one of the RGB patterns whose components, as
    floats, are not all equal. *)
Definition colored (m : Re.found) : bool :=
  match m with
  | Re.Tuple [r; g; b] =>
      match F64.py_float r, F64.py_float g, F64.py_float b with
      | Some x, Some y, Some z => negb (F64.eqb x y && F64.eqb y z)
      | _, _, _ => false
      end
  | _ => false
  end.

(** The fill and stroke triples of a content stream, in the order in which
    the scanner meets them. *)
Definition rgb_triples (s : chars) : list Re.found :=
  Re.findall (rgb_pattern "rg") s ++ Re.findall (rgb_pattern "RG") s.

(** The decoded text of the page's content stream, when there is one. *)
Definition content_data (pg : page) : option chars :=
  match page_contents pg with
  | Some (Ok c) => match read_contents c with Ok (Some s) => Some s | _ => None end
  | _ => None
  end.

(** The content-stream scan returns [True]. *)
Definition vector_signal (pg : page) : bool :=
  match fst (scan_vectors pg false) with Returned _ => true | _ => false end.

Definition cs_declares (cs : colorspace) : bool :=
  match cs with
  | CsNone => false
  | CsName n | CsArray n => declares_color n
  end.

(** What happens to an embedded image in the loop. *)
Inductive kind : Type :=
| Skipped                                 (* zero width or height *)
| Unreadable                              (* its size or colorspace raises *)
| Failing (cs : colorspace)               (* decoding raises *)
| Silent (cs : colorspace)                (* no data, or a mode that is not analysed *)
| Decoded (cs : colorspace) (a : raster). (* an RGB array is analysed *)

Definition classify (img : image) : kind :=
  match img_size img with
  | Exn => Unreadable
  | Ok (w, h) =>
      if (w =? 0) || (h =? 0) then Skipped else
      match img_colorspace img with
      | Exn => Unreadable
      | Ok cs =>
          match img_open img with
          | Exn => Failing cs
          | Ok None => Silent cs
          | Ok (Some (Pil ModeOther _)) => Silent cs
          | Ok (Some (Pil _ Exn)) => Failing cs
          | Ok (Some (Pil _ (Ok a))) => Decoded cs a
          end
      end
  end.

(** One of the four tests is positive on the (sampled) array. *)
Definition any_test (ct : Z) (st : Q) (a : raster) : bool :=
  test1 ct st (sample a) || test2 st (sample a)
  || test3 st (sample a) || test4 st (sample a).


(** Some image whose colorspace is inspected declares a colour space. *)
Definition declared (x : xobject) : bool :=
  match x with
  | XImage img =>
      match classify img with
      | Failing cs | Silent cs | Decoded cs _ => cs_declares cs
      | Skipped | Unreadable => false
      end
  | XOther => false
  end.

(** A page with the given XObject entries. *)
Definition has_xobjects (pg : page) (entries : list (res xobject)) : Prop :=
  page_xobjects pg = Ok (Some (Ok entries)).

(** The loop over the XObject entries (lines 65-158). *)
Definition image_loop (ct : Z) (st : Q) (entries : list (res xobject))
  : M bool bool unit :=
  for_each entries (fun entry =>
    bind (lift entry) (fun obj =>
      match obj with
      | XImage obj => inspect_image ct st obj
      | XOther => pass
      end)).




(** A block that leaves the locals alone and can only return [True]. *)
Definition inert {S} (m : M S bool unit) : Prop :=
  forall s, m s = (Normal tt, s) \/ m s = (Returned true, s) \/ m s = (Raised, s).

(** [n / total > threshold] evaluated in binary64, as numpy does, for a
    threshold given as a decimal literal [num / den]. *)
Definition exceeds64 (n total num den : Z) : bool :=
  F64.ltb (F64.of_ratio num den)
          (SFdiv F64.prec F64.emax (F64.of_Z n) (F64.of_Z total)).


(** The verdict a block of the image scan leads to: the value it returns,
    or else the flag it leaves in [has_color]. *)
Definition verdict (x : outcome bool unit * bool) : bool :=
  match fst x with
  | Returned r => r
  | _ => snd x
  end.

End ColorSpec.

(** Statements about the figure report. *)
Module FigureSpec.
Import Py Color Figures.

(** A figure number as the extractor builds it: digits, a dash, digits. *)
Definition well_numbered (number : chars) : Prop :=
  exists c i, number = c ++ str "-" ++ i
    /\ c <> [] /\ forallb Latin1.is_digit c = true
    /\ i <> [] /\ forallb Latin1.is_digit i = true.

Definition well_numbered_all (l : list figure_info) : Prop :=
  Forall (fun fc => well_numbered (fst fc)) l.


(** The records of one page: [matches] are the pairs the extractor
    returns for the page of index [page_num]. *)
Definition figures_of (page_offset page_num : Z) (matches : list figure_info)
  : list figure :=
  map (fun fc => Figure (fst fc) (snd fc) (page_num + 1) (page_num + 1 - page_offset))
      matches.

(** What the page loop guarantees of a record. *)
Definition recorded (page_offset : Z) (fig : figure) : Prop :=
  book_page fig = pdf_page fig - page_offset /\ well_numbered (figure_number fig).

(** The complete report for the figures [all], the book figures being
    written in the order [sorted]. *)
Definition report_of (total_pages page_offset : Z) (all sorted : list figure)
  : list report_item :=
  Header total_pages page_offset (length all) (length (book_figures all))
         (length (front_matter_figures all))
  :: map Detail sorted
  ++ match front_matter_figures all with
     | [] => []
     | front => FrontMatterTitle :: map FrontMatterEntry front
     end.

(** The document cannot be opened, or one of its pages cannot be read. *)
Definition unreadable (p : res page) : bool :=
  match p with Exn => true | Ok _ => false end.

Definition document_fails (w : world) : bool :=
  match pdf w with
  | Exn => true
  | Ok pages => existsb unreadable pages
  end.





End FigureSpec.

(** Sample inputs. *)
Module Samples.
Import Py Color.

Definition nl : chars := [ascii_of_nat 10].

(** Two grey pixels. *)
Definition grey_array : raster := [[Pixel 10 10 10; Pixel 200 200 200]].

(** A grey picture stored as DeviceRGB. *)
Definition grey_as_rgb : image :=
  Image (Ok (2, 1)) (Ok (CsName "/DeviceRGB")) (Ok (Some (Pil ModeRGB (Ok grey_array)))).

(** A DeviceGray picture whose payload does not decode. *)
Definition broken_grey : image :=
  Image (Ok (2, 1)) (Ok (CsName "/DeviceGray")) Exn.

(** A grey picture stored as DeviceGray, in palette mode. *)
Definition grey_palette : image :=
  Image (Ok (2, 1)) (Ok (CsName "/DeviceGray")) (Ok (Some (Pil ModeP (Ok grey_array)))).


Definition page_with (entries : list (res xobject)) : page :=
  Page (Ok None) None (Ok (Some (Ok entries))).

Definition page_drawing (ops : string) : page :=
  Page (Ok None) (Some (Ok (Stream (Ok (str ops))))) (Ok None).




Definition page_saying (text : chars) : page :=
  Page (Ok (Some text)) None (Ok None).

(** A page whose text, content stream and first image all fail to load. *)
Definition damaged_page : page :=
  Page Exn (Some (Ok (Stream Exn)))
       (Ok (Some (Ok [Ok (XImage broken_grey); Ok (XImage grey_palette)]))).

(** A document whose pages have the given texts, with a writable output
    file. *)
Definition document (texts : list chars) : Figures.world :=
  Figures.World (Ok (map (fun t => Ok (page_saying t)) texts)) true.

End Samples.

(** Further statements about [is_color_page]. *)
Module ColorMoreSpec.
Import Py Color ColorSpec.

(** A decoded image on which one of the four tests is positive. *)
Definition positive (ct : Z) (st : Q) (x : xobject) : bool :=
  match x with
  | XImage img =>
      match classify img with
      | Decoded _ a => any_test ct st a
      | _ => false
      end
  | XOther => false
  end.

(** The page with other XObject entries. *)
Definition with_entries (pg : page) (entries : list (res xobject)) : page :=
  Page (extract_text pg) (page_contents pg) (Ok (Some (Ok entries))).

End ColorMoreSpec.

(** Gray operands and sampling. *)
Module ScanMoreSpec.
Import Py Color ColorSpec.

(** The gray operands found in a content stream, fill then stroke. *)
Definition gray_operands (s : chars) : list Re.found :=
  Re.findall (gray_pattern "g") s ++ Re.findall (gray_pattern "G") s.

Definition three_long (m : Re.found) : bool := (Re.len m =? 3)%nat.

(** The ten digits. *)
Definition digits10 : list ascii :=
  ["0"; "1"; "2"; "3"; "4"; "5"; "6"; "7"; "8"; "9"]%char.

(** What an item of a content list contributes to the text scanned. *)
Definition item_text (item : option (res chars)) : chars :=
  match item with
  | Some (Ok data) => data
  | _ => []
  end.

Definition item_fails (item : option (res chars)) : bool :=
  match item with
  | Some Exn => true
  | _ => false
  end.

(** The step of the sampling of an array (line 109). *)
Definition sample_step (a : raster) : Z :=
  Z.max 1 (Z.min (shape0 a) (shape1 a) / 100).

(** A big array: 1001 rows of 1000 grey pixels. *)
Definition big_grey : raster := repeat (repeat (Pixel 10 10 10) 1000) 1001.

(** A thin array of more than 1,000,000 pixels: 199 rows of 5050. *)
Definition thin_grey : raster := repeat (repeat (Pixel 10 10 10) (50 * 101)) 199.

End ScanMoreSpec.

(** Further statements about the figure report. *)
Module FigureMoreSpec.
Import Py Color Figures FigureSpec.


(** The records of a page. *)
Definition page_figures (page_offset page_num : Z) (pg : page) : list figure :=
  match extract_figure_info pg with
  | Ok l => figures_of page_offset page_num l
  | Exn => []
  end.

(** The records of the pages from index [page_num] on, up to the first
    page that cannot be read. *)
Fixpoint collect (page_offset page_num : Z) (pages : list (res page)) : list figure :=
  match pages with
  | [] => []
  | Exn :: _ => []
  | Ok pg :: pages' =>
      page_figures page_offset page_num pg ++ collect page_offset (page_num + 1) pages'
  end.

(** The number of pages of the document, 0 when it does not open. *)
Definition page_count (w : world) : Z :=
  match pdf w with
  | Ok pages => Z.of_nat (length pages)
  | Exn => 0
  end.

(** The records of a run. *)
Definition records (w : world) (page_offset : Z) : list figure :=
  match pdf w with
  | Ok pages => collect page_offset 0 pages
  | Exn => []
  end.

(** The run stops before the report. *)
Definition stops_early (w : world) : bool :=
  document_fails w || negb (output_opens w).



(** No figure with a caption on the page. *)
Definition without_figure (p : res page) : bool :=
  match p with
  | Ok pg => match has_figure_pattern pg with Ok false => true | _ => false end
  | Exn => false
  end.


(** Two pages and three figures, one of them in the front matter for an
    offset of 1. *)
Definition two_pages : world :=
  Samples.document
    [str "Figure 2-10. b"; str "Figure 10-1. c" ++ Samples.nl ++ str "Figure 2-9. a"].


(** The same document when the output file cannot be opened. *)
Definition unwritable (w : world) : world := World (pdf w) false.

End FigureMoreSpec.

(** * The matcher *)
Module ReFacts.
Import Re.

Lemma star_sound p : forall s pv x,
  In x (star p pv s) -> exists w, s = w ++ snd x /\ forallb p w = true.
Proof.
  induction s as [|c s IH]; intros pv x Hin; simpl in Hin.
  - destruct Hin as [<-|[]]. exists []. auto.
  - destruct (p c) eqn:Hc.
    + apply in_app_or in Hin. destruct Hin as [Hin|[<-|[]]].
      * destruct (IH _ _ Hin) as (w & Hw & Hp).
        exists (c :: w). simpl. rewrite Hc, Hp. split; [congruence|reflexivity].
      * exists []. auto.
    + destruct Hin as [<-|[]]. exists []. auto.
Qed.

Lemma run_sound : forall r st st',
  In st' (run r st) -> exists w, rest st = w ++ rest st' /\ accepts r w.
Proof.
  induction r as [p|p|p|p| |r1 IH1 r2 IH2|r IH| ]; intros st st' Hin; simpl in Hin.
  - destruct (rest st) as [|c s] eqn:Hs; [destruct Hin|].
    destruct (p c) eqn:Hc; [|destruct Hin].
    destruct Hin as [<-|[]]. exists [c]. simpl. eauto.
  - destruct (rest st) as [|c s] eqn:Hs.
    + destruct Hin as [<-|[]]. exists []. simpl. auto.
    + destruct (p c) eqn:Hc.
      * destruct Hin as [<-|[<-|[]]].
        -- exists [c]. simpl. eauto.
        -- exists []. simpl. auto.
      * destruct Hin as [<-|[]]. exists []. simpl. auto.
  - apply in_map_iff in Hin. destruct Hin as (x & <- & Hx).
    apply star_sound in Hx. exact Hx.
  - destruct (rest st) as [|c s] eqn:Hs; [destruct Hin|].
    destruct (p c) eqn:Hc; [|destruct Hin].
    apply in_map_iff in Hin. destruct Hin as (x & <- & Hx).
    apply star_sound in Hx. destruct Hx as (w & Hw & Hp).
    exists (c :: w). simpl. rewrite Hc, Hp. repeat split; congruence.
  - destruct (xorb _ _); [|destruct Hin].
    destruct Hin as [<-|[]]. exists []. simpl. auto.
  - apply in_flat_map in Hin. destruct Hin as (st1 & H1 & H2).
    destruct (IH1 _ _ H1) as (w1 & Hw1 & Ha1).
    destruct (IH2 _ _ H2) as (w2 & Hw2 & Ha2).
    exists (w1 ++ w2). rewrite <- app_assoc, <- Hw2. split; [exact Hw1|].
    simpl. eauto.
  - apply in_map_iff in Hin. destruct Hin as (st1 & <- & H1).
    destruct (IH _ _ H1) as (w & Hw & Ha). exists w. simpl. auto.
  - destruct Hin as [<-|[]]. exists []. simpl. auto.
Qed.

Lemma run_caps : forall r st st',
  ngroups r = O -> In st' (run r st) -> caps st' = caps st.
Proof.
  induction r as [p|p|p|p| |r1 IH1 r2 IH2|r IH| ]; intros st st' Hg Hin; simpl in *.
  - destruct (rest st) as [|c s]; [destruct Hin|].
    destruct (p c); [|destruct Hin]. destruct Hin as [<-|[]]. reflexivity.
  - destruct (rest st) as [|c s].
    + destruct Hin as [<-|[]]. reflexivity.
    + destruct (p c).
      * destruct Hin as [<-|[<-|[]]]; reflexivity.
      * destruct Hin as [<-|[]]. reflexivity.
  - apply in_map_iff in Hin. destruct Hin as (x & <- & _). reflexivity.
  - destruct (rest st) as [|c s]; [destruct Hin|].
    destruct (p c); [|destruct Hin].
    apply in_map_iff in Hin. destruct Hin as (x & <- & _). reflexivity.
  - destruct (xorb _ _); [|destruct Hin]. destruct Hin as [<-|[]]. reflexivity.
  - apply in_flat_map in Hin. destruct Hin as (st1 & H1 & H2).
    rewrite (IH2 _ _ ltac:(lia) H2). apply (IH1 _ _ ltac:(lia) H1).
  - discriminate.
  - destruct Hin as [<-|[]]. reflexivity.
Qed.

(** A group without inner groups records exactly what it consumed. *)
Lemma run_group : forall r st st',
  ngroups r = O -> In st' (run (Grp r) st) ->
  exists w, rest st = w ++ rest st' /\ accepts r w /\ caps st' = caps st ++ [w].
Proof.
  intros r st st' Hg Hin. simpl in Hin.
  apply in_map_iff in Hin. destruct Hin as (st1 & <- & H1).
  destruct (run_sound _ _ _ H1) as (w & Hw & Ha).
  exists w. simpl. repeat split; auto.
  rewrite (run_caps _ _ _ Hg H1). f_equal. f_equal.
  rewrite Hw, length_app.
  replace (length w + length (rest st1) - length (rest st1))%nat with (length w) by lia.
  rewrite firstn_app, firstn_all, Nat.sub_diag. simpl. apply app_nil_r.
Qed.

Lemma run_cat r1 r2 st st' :
  In st' (run (Cat r1 r2) st) -> exists st1, In st1 (run r1 st) /\ In st' (run r2 st1).
Proof. simpl. intros H. apply in_flat_map in H. exact H. Qed.

(** Every element of [scan] is the groups of a match at some position. *)
Lemma scan_in r : forall s pv k cs,
  In cs (scan r pv s k) ->
  exists pv' s' st', In st' (run r (MState pv' s' [])) /\ caps st' = cs.
Proof.
  assert (Hhd : forall pv s st', match_at r pv s = Some st' ->
                                 In st' (run r (MState pv s []))).
  { unfold match_at. intros pv s st'. destruct (run r _); simpl; [discriminate|].
    intros [= ->]. left. reflexivity. }
  induction s as [|c s IH]; intros pv k cs Hin.
  - destruct k; simpl in Hin; [|destruct Hin].
    destruct (match_at r pv []) as [m|] eqn:Hm; [|destruct Hin].
    destruct Hin as [<-|[]]. exists pv, [], m. auto.
  - destruct k; simpl in Hin; [|eauto].
    destruct (match_at r pv (c :: s)) as [m|] eqn:Hm; [|eauto].
    destruct Hin as [<-|Hin]; [|eauto].
    exists pv, (c :: s), m. auto.
Qed.

End ReFacts.

(** * Numbers in the content stream *)
Module NumberFacts.
Import Re Color.

Lemma digit_not_dot c : Latin1.is_digit c = true -> Latin1.is_char "." c = false.
Proof.
  destruct c as [[] [] [] [] [] [] [] []]; vm_compute; congruence.
Qed.

Lemma split_dot_digits : forall d t,
  forallb Latin1.is_digit d = true ->
  F64.split_dot (d ++ t) = (d ++ fst (F64.split_dot t), snd (F64.split_dot t)).
Proof.
  induction d as [|c d IH]; intros t Hd; cbn [app F64.split_dot].
  - destruct (F64.split_dot t); reflexivity.
  - cbn [forallb] in Hd. apply andb_true_iff in Hd. destruct Hd as [Hc Hd].
    rewrite (digit_not_dot c Hc), (IH t Hd). reflexivity.
Qed.

(** [float] accepts every word of [[0-9]*\.?[0-9]+]. *)
Lemma number_is_float w :
  accepts number w -> exists x, F64.py_float w = Some x.
Proof.
  simpl. intros (w1 & w23 & -> & H1 & w2 & w3 & -> & H2 & Hne & H3).
  unfold F64.py_float.
  assert (Hlen : forall a : chars, length (a ++ w3) <> O).
  { intros a. rewrite length_app. destruct w3; [congruence|simpl; lia]. }
  destruct H2 as [->|(c & -> & Hc)].
  - simpl app. rewrite <- (app_nil_r (w1 ++ w3)), <- app_assoc.
    rewrite (split_dot_digits w1 (w3 ++ []) H1).
    rewrite (split_dot_digits w3 [] H3). simpl fst; simpl snd.
    rewrite !app_nil_r, forallb_app, H1, H3.
    destruct (Nat.eqb_spec (length (w1 ++ w3)) 0) as [E|E];
      [destruct (Hlen _ E)|]. simpl. eauto.
  - rewrite (split_dot_digits w1 ([c] ++ w3) H1). simpl app.
    unfold F64.split_dot at 1 2. rewrite Hc. simpl fst; simpl snd.
    rewrite app_nil_r, forallb_app, H1, H3.
    destruct (Nat.eqb_spec (length (w1 ++ w3)) 0) as [E|E];
      [destruct (Hlen _ E)|]. simpl. eauto.
Qed.

(** What [findall] gives for the two RGB patterns: triples of numbers. *)
Lemma rgb_findall_shape c s m :
  ngroups (op c) = O ->
  In m (findall (rgb_pattern c) s) ->
  exists r g b, m = Tuple [r; g; b]
    /\ accepts number r /\ accepts number g /\ accepts number b.
Proof.
  intros Hop Hin. unfold findall in Hin.
  assert (Hn : ngroups (rgb_pattern c) = 3%nat) by (simpl; rewrite Hop; reflexivity).
  rewrite Hn in Hin. apply in_map_iff in Hin. destruct Hin as (cs & <- & Hin).
  apply ReFacts.scan_in in Hin. destruct Hin as (pv & s' & st' & Hrun & <-).
  unfold rgb_pattern, then_ws in Hrun.
  apply ReFacts.run_cat in Hrun. destruct Hrun as (s0 & H0 & Hrun).
  pose proof (ReFacts.run_caps Bnd _ _ eq_refl H0) as C0. simpl in C0.
  apply ReFacts.run_cat in Hrun. destruct Hrun as (s1 & H1 & Hrun).
  apply ReFacts.run_group in H1; [|reflexivity]. destruct H1 as (r & _ & Ar & C1).
  apply ReFacts.run_cat in Hrun. destruct Hrun as (s2 & H2 & Hrun).
  pose proof (ReFacts.run_caps (Plus Latin1.is_space) _ _ eq_refl H2) as C2.
  apply ReFacts.run_cat in Hrun. destruct Hrun as (s3 & H3 & Hrun).
  apply ReFacts.run_group in H3; [|reflexivity]. destruct H3 as (g & _ & Ag & C3).
  apply ReFacts.run_cat in Hrun. destruct Hrun as (s4 & H4 & Hrun).
  pose proof (ReFacts.run_caps (Plus Latin1.is_space) _ _ eq_refl H4) as C4.
  apply ReFacts.run_cat in Hrun. destruct Hrun as (s5 & H5 & Hrun).
  apply ReFacts.run_group in H5; [|reflexivity]. destruct H5 as (b & _ & Ab & C5).
  apply ReFacts.run_cat in Hrun. destruct Hrun as (s6 & H6 & Hrun).
  pose proof (ReFacts.run_caps (Plus Latin1.is_space) _ _ eq_refl H6) as C6.
  pose proof (ReFacts.run_caps (op c) _ _ Hop Hrun) as C7.
  exists r, g, b. repeat split; auto.
  f_equal. rewrite C7, C6, C5, C4, C3, C2, C1, C0. reflexivity.
Qed.

End NumberFacts.

(** * Control flow of [is_color_page] *)
Module ColorFacts.
Import Py Color ColorSpec.

Lemma for_each_app {S R X} (body : X -> M S R unit) : forall l1 l2 s,
  for_each (l1 ++ l2) body s =
  match for_each l1 body s with
  | (Normal _, s') => for_each l2 body s'
  | o => o
  end.
Proof.
  induction l1 as [|x l1 IH]; intros l2 s; simpl.
  - reflexivity.
  - destruct (body x s) as [[a| |r|] s']; auto.
Qed.

(** A loop ends normally, returns or raises; [continue] stays inside. *)
Lemma for_each_cases {S R X} (body : X -> M S R unit) : forall l s,
  (exists s', for_each l body s = (Normal tt, s'))
  \/ (exists r s', for_each l body s = (Returned r, s'))
  \/ (exists s', for_each l body s = (Raised, s')).
Proof.
  induction l as [|x l IH]; intros s; simpl.
  - left. eexists. reflexivity.
  - destruct (body x s) as [[a| |r|] s']; eauto.
Qed.

Lemma for_each_inert {S X} (body : X -> M S bool unit) l :
  (forall x, inert (body x)) -> inert (for_each l body).
Proof.
  intros Hb. induction l as [|x l IH]; intros s; simpl.
  - left. reflexivity.
  - destruct (Hb x s) as [E|[E|E]]; rewrite E; auto.
Qed.

Lemma float_item_cases {S R} m i (s : S) :
  (exists x, @float_item S R m i s = (Normal x, s)) \/ @float_item S R m i s = (Raised, s).
Proof.
  unfold float_item. destruct (Re.item m i) as [t|]; [|right; reflexivity].
  destruct (F64.py_float t); [left; eexists|right]; reflexivity.
Qed.

Lemma check_match_inert {S} m : inert (@check_match S m).
Proof.
  intros s. unfold check_match.
  destruct (Re.len m =? 3)%nat.
  - py. destruct (@float_item_cases S bool m 0 s) as [[x ->]| ->]; auto.
    destruct (@float_item_cases S bool m 1 s) as [[y ->]| ->]; auto.
    destruct (@float_item_cases S bool m 2 s) as [[z ->]| ->]; auto.
    destruct (negb _); auto.
  - destruct (Re.len m =? 1)%nat; [|left; reflexivity].
    py. destruct (@float_item_cases S bool m 0 s) as [[x ->]| ->]; auto.
Qed.

Lemma scan_patterns_inert {S} cd : inert (@scan_patterns S cd).
Proof.
  unfold scan_patterns. apply for_each_inert. intros pattern s.
  destruct cd as [t|]; py; [|auto].
  apply (for_each_inert check_match); intros m; apply check_match_inert.
Qed.

(** The content-stream scan returns [True] or falls through; it never
    raises and never touches [has_color]. *)
Lemma scan_vectors_cases {S} pg (s : S) :
  scan_vectors pg s = (Normal tt, s) \/ scan_vectors pg s = (Returned true, s).
Proof.
  unfold scan_vectors. destruct (page_contents pg) as [[c|]|]; py; auto.
  destruct (read_contents c) as [cd|]; auto.
  destruct (scan_patterns_inert cd s) as [E|[E|E]]; rewrite E; auto.
Qed.

(** One image of the loop, case by case. *)
Lemma inspect_image_classify ct st img hc :
  inspect_image ct st img hc =
  match classify img with
  | Skipped | Unreadable => (Continued, hc)
  | Failing cs =>
      (if hc || cs_declares cs then Returned true else Continued, hc || cs_declares cs)
  | Silent cs => (Normal tt, hc || cs_declares cs)
  | Decoded cs a =>
      (if any_test ct st a then Returned true else Normal tt, hc || cs_declares cs)
  end.
Proof.
  unfold inspect_image, classify, analyze_data, check_colorspace, analyze, any_test.
  destruct (img_size img) as [[w h]|]; py; [|reflexivity].
  destruct ((w =? 0) || (h =? 0)); [reflexivity|].
  destruct (img_colorspace img) as [cs|]; [|reflexivity].
  destruct (img_open img) as [[[m [a|]]|]|];
    try destruct m;
    destruct cs as [|n|n]; simpl; rewrite ?orb_false_r;
    try destruct (declares_color n); try destruct hc; simpl;
    try reflexivity;
    destruct (test1 ct st (sample a)); simpl; try reflexivity;
    destruct (test2 st (sample a)); simpl; try reflexivity;
    destruct (test3 st (sample a)); simpl; try reflexivity;
    destruct (test4 st (sample a)); reflexivity.
Qed.

Lemma image_loop_cons ct st entry entries hc :
  image_loop ct st (entry :: entries) hc =
  match entry with
  | Exn => (Raised, hc)
  | Ok XOther => image_loop ct st entries hc
  | Ok (XImage img) =>
      match inspect_image ct st img hc with
      | (Normal _, hc') | (Continued, hc') => image_loop ct st entries hc'
      | o => o
      end
  end.
Proof.
  unfold image_loop. simpl. destruct entry as [[img|]|]; py; reflexivity.
Qed.

(** The flag never goes back to [False], the loop never returns [False],
    and [continue] does not leave it. *)
Lemma image_loop_mono ct st : forall entries hc,
  exists o hc', image_loop ct st entries hc = (o, hc')
    /\ (hc = true -> hc' = true)
    /\ (o = Normal tt \/ o = Returned true \/ o = Raised).
Proof.
  induction entries as [|entry entries IH]; intros hc.
  - exists (Normal tt), hc. auto.
  - rewrite image_loop_cons. destruct entry as [[img|]|].
    + rewrite inspect_image_classify.
      destruct (classify img) as [| |cs|cs|cs a].
      * apply IH.
      * apply IH.
      * destruct (hc || cs_declares cs) eqn:E.
        -- exists (Returned true), true. auto.
        -- destruct (IH false) as (o & hc' & E1 & _ & E3).
           exists o, hc'. repeat split; auto.
           intros ->. discriminate.
      * destruct (IH (hc || cs_declares cs)) as (o & hc' & E1 & E2 & E3).
        exists o, hc'. repeat split; auto. intros ->. auto.
      * destruct (any_test ct st a).
        -- exists (Returned true), (hc || cs_declares cs). repeat split; auto.
           intros ->. reflexivity.
        -- destruct (IH (hc || cs_declares cs)) as (o & hc' & E1 & E2 & E3).
           exists o, hc'. repeat split; auto. intros ->. auto.
    + apply IH.
    + exists Raised, hc. auto.
Qed.

(** Once [has_color] is set the verdict is [True], whatever follows. *)
Lemma flag_wins ct st entries : verdict (image_loop ct st entries true) = true.
Proof.
  destruct (image_loop_mono ct st entries true) as (o & hc' & E & Hhc & Ho).
  rewrite E. unfold verdict. simpl. rewrite (Hhc eq_refl).
  destruct Ho as [->|[->| ->]]; reflexivity.
Qed.

Lemma scan_images_eq ct st pg hc :
  scan_images ct st pg hc =
  match page_xobjects pg with
  | Exn => (Raised, hc)
  | Ok None | Ok (Some Exn) => (Normal tt, hc)
  | Ok (Some (Ok entries)) =>
      match image_loop ct st entries hc with
      | (Raised, hc') => (Normal tt, hc')
      | o => o
      end
  end.
Proof.
  unfold scan_images. destruct (page_xobjects pg) as [[[entries|]|]|]; py; reflexivity.
Qed.

(** The verdict of the page: a vector signal, or else what the image scan
    leads to. *)
Lemma is_color_page_eq ct st pg :
  is_color_page ct st pg =
  Ok (vector_signal pg || verdict (scan_images ct st pg false)).
Proof.
  unfold is_color_page, call, is_color_page_body, vector_signal. py.
  destruct (scan_vectors_cases pg false) as [E|E]; rewrite E; simpl; [|reflexivity].
  rewrite scan_images_eq. unfold verdict.
  destruct (page_xobjects pg) as [[[entries|]|]|]; simpl; try reflexivity.
  destruct (image_loop_mono ct st entries false) as (o & hc' & -> & _ & Ho).
  destruct Ho as [->|[->| ->]]; reflexivity.
Qed.

Lemma is_color_page_loop ct st pg entries :
  has_xobjects pg entries ->
  is_color_page ct st pg =
  Ok (vector_signal pg || verdict (image_loop ct st entries false)).
Proof.
  intros H. rewrite is_color_page_eq, scan_images_eq. unfold has_xobjects in H.
  rewrite H. do 2 f_equal. unfold verdict.
  destruct (image_loop ct st entries false) as [[[]| |r|] hc']; reflexivity.
Qed.

(** *** The RGB patterns *)

Lemma check_match_rgb {S} m (s : S) :
  (exists r g b, m = Re.Tuple [r; g; b]
     /\ accepts number r /\ accepts number g /\ accepts number b) ->
  check_match m s = (if colored m then Returned true else Normal tt, s).
Proof.
  intros (r & g & b & -> & Hr & Hg & Hb).
  destruct (NumberFacts.number_is_float r Hr) as [x Hx].
  destruct (NumberFacts.number_is_float g Hg) as [y Hy].
  destruct (NumberFacts.number_is_float b Hb) as [z Hz].
  unfold check_match, float_item, colored. simpl. rewrite Hx, Hy, Hz. py.
  destruct (negb _); reflexivity.
Qed.

Lemma rgb_loop {S} ms (s : S) :
  (forall m, In m ms -> exists r g b, m = Re.Tuple [r; g; b]
     /\ accepts number r /\ accepts number g /\ accepts number b) ->
  for_each ms check_match s =
  (if existsb colored ms then Returned true else Normal tt, s).
Proof.
  induction ms as [|m ms IH]; intros Hms; simpl.
  - reflexivity.
  - rewrite (check_match_rgb m s (Hms m (or_introl eq_refl))).
    destruct (colored m); simpl; [reflexivity|].
    apply IH. intros m' Hm'. apply Hms. right. exact Hm'.
Qed.



End ColorFacts.

(** * Claims about [is_color_page] *)
Module ColorClaims.
Import Py Color ColorSpec ColorFacts.



(** *** The flag and the verdict *)





(** *** The fallback on a decoding failure *)

(** Past entries that all resolve, one of which is an inspected image that
    declares a colour space, the loop has returned [True] or goes on
    with the flag set. *)
Lemma loop_sets_flag ct st : forall pre hc,
  Forall (fun e => e <> Exn) pre ->
  hc = true \/ (exists early, In (Ok (XImage early)) pre /\ declared (XImage early) = true) ->
  (exists hc', image_loop ct st pre hc = (Returned true, hc'))
  \/ image_loop ct st pre hc = (Normal tt, true).
Proof.
  induction pre as [|e pre IH]; intros hc Hok Hflag.
  - destruct Hflag as [->|(early & [] & _)]. right. reflexivity.
  - inversion Hok as [|? ? He Hok']; subst.
    rewrite image_loop_cons. destruct e as [[img|]|]; [| |congruence].
    + assert (Hnext : forall cs, classify img = cs ->
                (forall c, cs <> Failing c) -> (forall c, cs <> Silent c) ->
                (forall c a, cs <> Decoded c a) ->
                hc = true \/ (exists early, In (Ok (XImage early)) pre
                                            /\ declared (XImage early) = true)).
      { intros k Hk H1 H2 H3. destruct Hflag as [->|(early & [E|E] & Hd)]; auto.
        - injection E as ->. simpl in Hd. rewrite Hk in Hd.
          destruct k; try discriminate;
            [destruct (H1 cs)|destruct (H2 cs)|destruct (H3 cs a)]; reflexivity.
        - right. eauto. }
      assert (Hset : forall cs, declared (XImage img) = cs_declares cs ->
                hc || cs_declares cs = true
                \/ (exists early, In (Ok (XImage early)) pre
                                  /\ declared (XImage early) = true)).
      { intros cs Hcs. destruct Hflag as [->|(early & [E|E] & Hd)]; auto.
        - injection E as ->. rewrite Hcs in Hd. rewrite Hd, orb_true_r. auto.
        - right. eauto. }
      rewrite inspect_image_classify.
      destruct (classify img) as [| |cs|cs|cs a] eqn:Hk.
      * apply IH; auto. apply (Hnext _ eq_refl); congruence.
      * apply IH; auto. apply (Hnext _ eq_refl); congruence.
      * destruct (hc || cs_declares cs) eqn:Hf; [left; eauto|].
        apply IH; auto. right.
        destruct (Hset cs) as [E|E]; [simpl; rewrite Hk; reflexivity|congruence|exact E].
      * apply IH; auto. apply Hset. simpl. rewrite Hk. reflexivity.
      * destruct (any_test ct st a); [left; eauto|].
        apply IH; auto. apply Hset. simpl. rewrite Hk. reflexivity.
    + apply IH; auto. destruct Hflag as [->|(early & [E|E] & Hd)]; auto.
      * discriminate.
      * right. eauto.
Qed.

(** C10: the fallback reads the flag accumulated over the images inspected
    so far.  After an inspected image that declares a colour space, a
    later image whose decoding fails makes [is_color_page] return [True]
    at that image at the latest, whatever the colorspace of the failing
    image is and whatever entries follow. *)
Theorem decode_failure_reads_page_flag ct st pre early late cs_late post :
  Forall (fun e => e <> Exn) pre ->
  In (Ok (XImage early)) pre ->
  declared (XImage early) = true ->
  classify late = Failing cs_late ->
  inspect_image ct st late true = (Returned true, true)
  /\ (exists hc, image_loop ct st (pre ++ Ok (XImage late) :: post) false
                 = (Returned true, hc))
  /\ (forall pg, has_xobjects pg (pre ++ Ok (XImage late) :: post) ->
                 is_color_page ct st pg = Ok true).
Proof.
  intros Hok Hin Hd Hlate.
  assert (H1 : inspect_image ct st late true = (Returned true, true)).
  { rewrite inspect_image_classify, Hlate. reflexivity. }
  assert (H2 : exists hc, image_loop ct st (pre ++ Ok (XImage late) :: post) false
                          = (Returned true, hc)).
  { unfold image_loop. rewrite for_each_app. fold (image_loop ct st pre).
    destruct (loop_sets_flag ct st pre false Hok) as [(hc & ->)| ->]; eauto.
    fold (image_loop ct st (Ok (XImage late) :: post)).
    rewrite image_loop_cons, H1. eauto. }
  repeat split; auto.
  intros pg Hx. destruct H2 as (hc & H2).
  rewrite (is_color_page_loop ct st pg _ Hx), H2. apply f_equal, orb_true_r.
Qed.

Lemma decode_failure_reads_page_flag_witness :
  is_color_page 3 (1 # 1000)
    (Samples.page_with [Ok (XImage Samples.grey_as_rgb); Ok (XImage Samples.broken_grey)])
  = Ok true.
Proof.
  refine (proj2 (proj2
    (decode_failure_reads_page_flag 3 (1 # 1000)
       [Ok (XImage Samples.grey_as_rgb)] Samples.grey_as_rgb Samples.broken_grey
       (CsName "/DeviceGray") [] _ _ _ _)) _ _).
  - repeat constructor. discriminate.
  - left. reflexivity.
  - vm_compute. reflexivity.
  - reflexivity.
  - reflexivity.
Defined.

(** *** Totality *)

Lemma unread_contents_no_signal pg :
  content_data pg = None -> vector_signal pg = false.
Proof.
  unfold content_data, vector_signal, scan_vectors.
  destruct (page_contents pg) as [[c|]|]; py; try reflexivity.
  destruct (read_contents c) as [[t|]|]; try discriminate; reflexivity.
Qed.





End ColorClaims.

(** * The pixel tests *)
Module PixelFacts.
Import Py Color ColorSpec.











(** With the default [sample_threshold = 0.001] the binary64 evaluation
    answers as the exact one at the boundary, for every array of 1000 k
    pixels that is analysed without sampling, and on every fraction of up
    to 100 pixels. *)
Lemma default_threshold_binary64 :
  (forall k, 1 <= k <= 1000 ->
     exceeds64 k (1000 * k) 1 1000 = false
     /\ exceeds k (1000 * k) (1 # 1000) = false
     /\ exceeds64 (k + 1) (1000 * k) 1 1000 = true
     /\ exceeds (k + 1) (1000 * k) (1 # 1000) = true)
  /\ (forall n t, 0 <= n <= 100 -> 1 <= t <= 100 ->
       exceeds64 n t 1 1000 = exceeds n t (1 # 1000)).
Proof.
  split.
  - assert (H : forallb (fun k =>
                  negb (exceeds64 k (1000 * k) 1 1000)
                  && negb (exceeds k (1000 * k) (1 # 1000))
                  && exceeds64 (k + 1) (1000 * k) 1 1000
                  && exceeds (k + 1) (1000 * k) (1 # 1000))
                (map Z.of_nat (seq 1 1000)) = true)
      by (vm_compute; reflexivity).
    intros k Hk. rewrite forallb_forall in H.
    assert (Hin : In k (map Z.of_nat (seq 1 1000))).
    { apply in_map_iff. exists (Z.to_nat k). split; [lia|]. apply in_seq. lia. }
    specialize (H k Hin).
    repeat (apply andb_true_iff in H; destruct H as [H ?]).
    rewrite negb_true_iff in *. auto.
  - assert (H : forallb (fun n => forallb (fun t =>
                  Bool.eqb (exceeds64 n t 1 1000) (exceeds n t (1 # 1000)))
                  (map Z.of_nat (seq 1 100))) (map Z.of_nat (seq 0 101)) = true)
      by (vm_compute; reflexivity).
    intros n t Hn Ht. rewrite forallb_forall in H.
    assert (Hin : In n (map Z.of_nat (seq 0 101))).
    { apply in_map_iff. exists (Z.to_nat n). split; [lia|]. apply in_seq. lia. }
    specialize (H n Hin). rewrite forallb_forall in H.
    assert (Hit : In t (map Z.of_nat (seq 1 100))).
    { apply in_map_iff. exists (Z.to_nat t). split; [lia|]. apply in_seq. lia. }
    apply Bool.eqb_prop. apply (H t Hit).
Qed.



End PixelFacts.

(** * Claims about the pixel tests *)
Module PixelClaims.
Import Py Color ColorSpec ColorFacts PixelFacts.





End PixelClaims.

(** * The figure extractor and the report *)
Module FigureFacts.
Import Py Color Figures FigureSpec.
Import ColorFacts.

Lemma digit_not_dash c : Latin1.is_digit c = true -> Ascii.eqb c "-" = false.
Proof.
  destruct c as [[] [] [] [] [] [] [] []]; vm_compute; congruence.
Qed.

Lemma split_cons sep s : exists w ws, split sep s = w :: ws.
Proof.
  induction s as [|c s (w & ws & IH)]; simpl; [eauto|].
  destruct (Ascii.eqb c sep); [eauto|]. rewrite IH. eauto.
Qed.

Lemma split_digits : forall d t,
  forallb Latin1.is_digit d = true ->
  split "-" (d ++ t) = (d ++ hd [] (split "-" t)) :: tl (split "-" t).
Proof.
  induction d as [|c d IH]; intros t Hd; cbn [app].
  - destruct (split_cons "-" t) as (w & ws & ->). reflexivity.
  - cbn [forallb] in Hd. apply andb_true_iff in Hd. destruct Hd as [Hc Hd].
    cbn [split]. rewrite (digit_not_dash c Hc), (IH t Hd). reflexivity.
Qed.

Lemma py_int_digits d :
  d <> [] -> forallb Latin1.is_digit d = true -> py_int d = Ok (F64.digits_val d).
Proof.
  intros Hne Hd. unfold py_int. destruct d; [congruence|]. rewrite Hd. reflexivity.
Qed.

(** [sort_key] succeeds on the figure numbers of the extractor. *)
Lemma sort_key_well_numbered fig :
  well_numbered (figure_number fig) -> exists k, sort_key fig = Ok k.
Proof.
  intros (c & i & E & Hc & Dc & Hi & Di). unfold sort_key. rewrite E.
  rewrite (split_digits c _ Dc). change (str "-" ++ i) with ("-"%char :: i).
  cbn [split]. rewrite Ascii.eqb_refl.
  rewrite <- (app_nil_r i), (split_digits i [] Di). cbn [split hd tl].
  rewrite !app_nil_r. unfold part. cbn [nth_error].
  rewrite (py_int_digits c Hc Dc), (py_int_digits i Hi Di). eauto.
Qed.

(** What [findall] gives for the figure pattern: two runs of digits and
    the rest of the line. *)
Lemma figure_findall_shape t m :
  In m (Re.findall figure_pattern t) ->
  exists c i cap, m = Re.Tuple [c; i; cap]
    /\ c <> [] /\ forallb Latin1.is_digit c = true
    /\ i <> [] /\ forallb Latin1.is_digit i = true.
Proof.
  intros Hin. unfold Re.findall in Hin.
  change (Re.ngroups figure_pattern) with 3%nat in Hin.
  apply in_map_iff in Hin. destruct Hin as (cs & <- & Hin).
  apply ReFacts.scan_in in Hin. destruct Hin as (pv & s' & st' & Hrun & <-).
  unfold figure_pattern in Hrun.
  repeat match goal with
         | H : In _ (Re.run (Re.Cat _ _) _) |- _ =>
             apply ReFacts.run_cat in H;
             let st := fresh "st" in
             let H1 := fresh "H" in
             destruct H as (st & H1 & H)
         end.
  repeat match goal with
         | H : In _ (Re.run (Re.Grp _) _) |- _ =>
             apply ReFacts.run_group in H; [|reflexivity];
             let w := fresh "w" in
             let A := fresh "A" in
             let C := fresh "C" in
             destruct H as (w & _ & A & C)
         | H : In ?b (Re.run ?r ?a) |- _ =>
             apply (ReFacts.run_caps r a b eq_refl) in H
         end.
  simpl in A0, A1.
  exists w1, w0, w. repeat split; try tauto.
  f_equal.
  repeat match goal with
         | H : Re.caps _ = _ |- _ => rewrite H; clear H
         end.
  reflexivity.
Qed.

Lemma extract_loop {R} : forall ms figures,
  (forall m, In m ms -> exists c i cap, m = Re.Tuple [c; i; cap]
     /\ c <> [] /\ forallb Latin1.is_digit c = true
     /\ i <> [] /\ forallb Latin1.is_digit i = true) ->
  exists added,
    for_each ms (@record_match R) figures = (Normal tt, figures ++ added)
    /\ well_numbered_all added.
Proof.
  induction ms as [|m ms IH]; intros figures Hms.
  - exists []. rewrite app_nil_r. split; [reflexivity|constructor].
  - destruct (Hms m (or_introl eq_refl)) as (c & i & cap & -> & Hc & Dc & Hi & Di).
    assert (Hms' : forall m, In m ms -> exists c i cap, m = Re.Tuple [c; i; cap]
              /\ c <> [] /\ forallb Latin1.is_digit c = true
              /\ i <> [] /\ forallb Latin1.is_digit i = true).
    { intros m Hm. apply Hms. right. exact Hm. }
    cbn [for_each]. unfold record_match at 1. cbn [tuple3]. py.
    destruct (strip cap) as [|x cap'] eqn:Ecap.
    + apply IH. exact Hms'.
    + destruct (IH (figures ++ [(c ++ str "-" ++ i, rstrip (Latin1.is_char ".") (x :: cap'))]) Hms')
        as (added & E & Hwn).
      exists ((c ++ str "-" ++ i, rstrip (Latin1.is_char ".") (x :: cap')) :: added).
      split; [etransitivity; [exact E|rewrite <- app_assoc; reflexivity]|].
      constructor; [|exact Hwn]. exists c, i. auto.
Qed.

(** [extract_figure_info] returns a list, never raises, and its figure
    numbers are well formed. *)
Lemma extract_figure_info_ok pg :
  exists l, extract_figure_info pg = Ok l /\ well_numbered_all l.
Proof.
  unfold extract_figure_info, call, extract_figure_info_body.
  destruct (extract_text pg) as [[[|c t]|]|]; py; simpl;
    try (exists []; split; [reflexivity|constructor]).
  destruct (@extract_loop (list figure_info) (Re.findall figure_pattern (c :: t)) [])
    as (added & E & Hwn).
  { intros m Hm. apply (figure_findall_shape _ m Hm). }
  rewrite E. simpl. eauto.
Qed.

(** *** The page loop *)

Lemma append_loop {R} (mk : figure_info -> figure) : forall l s,
  for_each l (fun fc => @append_figure R (mk fc)) s
  = (Normal tt, Locals (figure_pages s) (all_figures s ++ map mk l) (written s)).
Proof.
  induction l as [|fc l IH]; intros [fp all wr]; simpl.
  - rewrite app_nil_r. reflexivity.
  - unfold append_figure at 1, modify at 1. simpl.
    rewrite IH. simpl. rewrite <- app_assoc. reflexivity.
Qed.

Lemma visit_page_ok off i pg s :
  exists l fp,
    extract_figure_info pg = Ok l /\ well_numbered_all l
    /\ visit_page off (i, Ok pg) s
       = (Normal tt, Locals fp (all_figures s ++ figures_of off i l) (written s)).
Proof.
  destruct (extract_figure_info_ok pg) as (l & E & Hwn).
  unfold visit_page. py. rewrite E.
  destruct l as [|fc l].
  - exists [], (figure_pages s). repeat split; auto.
    destruct s. simpl. rewrite app_nil_r. reflexivity.
  - exists (fc :: l), (figure_pages s ++ [i + 1 - off]). repeat split; auto.
    unfold modify. rewrite append_loop. reflexivity.
Qed.

(** The loop over the pages stops at the first page that cannot be read;
    it only adds records, each with its two page numbers related by the
    offset, and writes nothing. *)
Lemma page_loop off : forall pages i s,
  exists fp added,
    for_each (enumerate i pages) (visit_page off) s
    = (if existsb unreadable pages then Raised else Normal tt,
       Locals fp (all_figures s ++ added) (written s))
    /\ Forall (recorded off) added.
Proof.
  induction pages as [|p pages IH]; intros i s.
  - exists (figure_pages s), []. destruct s. simpl. rewrite app_nil_r. auto.
  - cbn [enumerate for_each existsb]. destruct p as [pg|].
    + destruct (visit_page_ok off i pg s) as (l & fp & E & Hwn & ->).
      destruct (IH (i + 1) (Locals fp (all_figures s ++ figures_of off i l) (written s)))
        as (fp' & added & -> & Hrec).
      exists fp', (figures_of off i l ++ added). simpl.
      rewrite <- app_assoc. split; [reflexivity|].
      apply Forall_app. split; [|exact Hrec].
      unfold figures_of. apply Forall_map.
      revert Hwn. apply Forall_impl. intros fc Hfc. split; [reflexivity|exact Hfc].
    + exists (figure_pages s), []. destruct s. simpl. rewrite app_nil_r. auto.
Qed.

Lemma write_loop {R} (mk : figure -> report_item) : forall l s,
  for_each l (fun fig => @write R (mk fig)) s
  = (Normal tt, Locals (figure_pages s) (all_figures s) (written s ++ map mk l)).
Proof.
  induction l as [|fig l IH]; intros [fp all wr]; simpl.
  - rewrite app_nil_r. reflexivity.
  - unfold write at 1, modify at 1. simpl.
    rewrite IH. simpl. rewrite <- app_assoc. reflexivity.
Qed.

Lemma write_eq {R} x s :
  @write R x s
  = (Normal tt, Locals (figure_pages s) (all_figures s) (written s ++ [x])).
Proof. reflexivity. Qed.

(** The whole run, case by case. *)
Lemma run_cases w off :
  exists fp all,
    Forall (recorded off) all
    /\ ((document_fails w = true
         /\ run_find_figure_pages w off = (Returned [], Locals fp all []))
        \/ (document_fails w = false /\ output_opens w = false
            /\ run_find_figure_pages w off = (Returned [], Locals fp all []))
        \/ (exists pages sorted,
              document_fails w = false /\ output_opens w = true
              /\ pdf w = Ok pages
              /\ sorted_by_key (book_figures all) = Ok sorted
              /\ run_find_figure_pages w off
                 = (Returned (map book_page (book_figures all)),
                    Locals fp all
                      (report_of (Z.of_nat (length pages)) off all sorted)))).
Proof.
  unfold run_find_figure_pages, find_figure_pages_body, document_fails.
  destruct (pdf w) as [pages|]; py.
  2:{ exists [], []. split; [constructor|]. left. auto. }
  destruct (page_loop off pages 0 (Locals [] [] [])) as (fp & all & -> & Hrec).
  cbn [all_figures written figure_pages app]. exists fp, all. split; [exact Hrec|].
  destruct (existsb unreadable pages).
  { left. auto. }
  destruct (output_opens w).
  2:{ right. left. auto. }
  right. right.
  assert (Hkeys : exists sorted, sorted_by_key (book_figures all) = Ok sorted).
  { unfold sorted_by_key.
    assert (Hk : exists ks, with_keys (book_figures all) = Ok ks).
    { assert (Hb : Forall (recorded off) (book_figures all)).
      { unfold book_figures. apply Forall_forall. intros f Hf.
        apply filter_In in Hf. rewrite Forall_forall in Hrec. apply Hrec, Hf. }
      induction Hb as [|f l Hf _ (ks & IH)]; simpl; [eauto|].
      destruct (sort_key_well_numbered f (proj2 Hf)) as (k & ->). rewrite IH. eauto. }
    destruct Hk as (ks & ->). eauto. }
  destruct Hkeys as (sorted & Hs).
  exists pages, sorted. repeat split; auto.
  rewrite write_eq. cbv beta iota zeta. rewrite Hs.
  rewrite write_loop. cbn [all_figures written figure_pages app].
  unfold report_of.
  destruct (front_matter_figures all) as [|f front]; cbv beta iota zeta.
  - rewrite app_nil_r. reflexivity.
  - rewrite write_eq. cbv beta iota zeta. rewrite write_loop.
    cbn [all_figures written figure_pages app].
    rewrite <- !app_assoc. reflexivity.
Qed.

(** *** Sorting by [(chapter, index)] *)














End FigureFacts.

(** * Claims about the figures *)
Module FigureClaims.
Import Py Color Figures FigureSpec FigureFacts.



(** The final locals of a run and what it returns. *)
Lemma run_summary w off :
  exists fp all wr,
    final_locals w off = Locals fp all wr
    /\ Forall (recorded off) all
    /\ (wr = [] \/ exists total sorted,
          sorted_by_key (book_figures all) = Ok sorted
          /\ wr = report_of total off all sorted)
    /\ (document_fails w = true -> wr = [] /\ find_figure_pages w off = Ok [])
    /\ (document_fails w = false -> output_opens w = true ->
        exists total sorted,
          sorted_by_key (book_figures all) = Ok sorted
          /\ wr = report_of total off all sorted
          /\ find_figure_pages w off = Ok (map book_page (book_figures all))).
Proof.
  destruct (run_cases w off) as (fp & all & Hrec & H).
  unfold final_locals, find_figure_pages, call.
  fold (run_find_figure_pages w off).
  destruct H as [(Hf & ->)|[(Hf & Ho & ->)|(pages & sorted & Hf & Ho & Hp & Hs & ->)]];
    simpl; exists fp, all.
  - exists []. repeat split; auto; congruence.
  - exists []. repeat split; auto; congruence.
  - exists (report_of (Z.of_nat (length pages)) off all sorted).
    repeat split; eauto; congruence.
Qed.





(** C9: when the document cannot be opened or read, [find_figure_pages]
    returns the empty list: the exception stops at the function's outer
    handler, and nothing is written. *)
Theorem open_failure_returns_empty w off :
  document_fails w = true ->
  find_figure_pages w off = Ok [] /\ written (final_locals w off) = [].
Proof.
  intros Hf.
  destruct (run_summary w off) as (fp & all & wr & E & _ & _ & Hfail & _).
  destruct (Hfail Hf) as (-> & Hr). rewrite E. auto.
Qed.

Lemma open_failure_returns_empty_witness :
  find_figure_pages (World Exn true) 33 = Ok [].
Proof.
  apply (open_failure_returns_empty (World Exn true) 33). reflexivity.
Defined.

(** No run lets an exception out. *)
Lemma find_figure_pages_total w off : exists l, find_figure_pages w off = Ok l.
Proof.
  destruct (run_cases w off) as (fp & all & _ & H).
  unfold find_figure_pages, call. fold (run_find_figure_pages w off).
  destruct H as [(_ & ->)|[(_ & _ & ->)|(pages & sorted & _ & _ & _ & _ & ->)]];
    simpl; eauto.
Qed.

End FigureClaims.

(** * More about [is_color_page] *)
Module ColorMore.
Import Py Color ColorSpec ColorMoreSpec ColorFacts PixelFacts.

Lemma differs_non_grayscale ct p :
  0 <= ct -> differs ct p = true -> non_grayscale p = true.
Proof.
  intros Hct H. unfold differs in H. unfold non_grayscale.
  apply negb_true_iff. apply andb_false_iff.
  destruct (Z.eqb_spec (red p) (green p)) as [E1|E1]; [|left; reflexivity].
  destruct (Z.eqb_spec (green p) (blue p)) as [E2|E2]; [|right; reflexivity].
  rewrite E1, E2, !Z.sub_diag in H. simpl in H.
  destruct (Z.gtb_spec 0 ct); [lia|discriminate].
Qed.

Lemma count_le f g : (forall p, f p = true -> g p = true) ->
  forall a, count f a <= count g a.
Proof.
  intros H. induction a as [|row a IH]; simpl; [lia|].
  assert (Hr : (length (filter f row) <= length (filter g row))%nat).
  { induction row as [|p row IHr]; simpl; [lia|].
    destruct (f p) eqn:Ef.
    - rewrite (H p Ef). simpl. lia.
    - destruct (g p); simpl; lia. }
  lia.
Qed.

(** More pixels and a lower threshold keep a positive test positive. *)
Lemma exceeds_mono n n' total thr thr' :
  n <= n' -> (thr' <= thr)%Q ->
  exceeds n total thr = true -> exceeds n' total thr' = true.
Proof.
  intros Hn Ht. unfold exceeds. destruct total as [|t|t].
  - intros H. apply Z.ltb_lt in H. apply Z.ltb_lt. lia.
  - destruct (Qcompare thr (n # t)) eqn:E; try discriminate. intros _.
    apply Qlt_alt in E.
    assert (L : (thr' < n' # t)%Q).
    { apply (Qle_lt_trans _ _ _ Ht). apply (Qlt_le_trans _ _ _ E).
      unfold Qle. simpl. nia. }
    apply Qlt_alt in L. unfold Qcompare in L |- *. rewrite L. reflexivity.
  - intros H. apply Z.ltb_lt in H. apply Z.ltb_lt. lia.
Qed.

Lemma half_le st : (0 <= st)%Q -> (st * (1 # 2) <= st)%Q.
Proof.
  intros H. unfold Qle in *. simpl in *. nia.
Qed.

Lemma test1_test2 ct st a :
  0 <= ct -> (0 <= st)%Q -> test1 ct st a = true -> test2 st a = true.
Proof.
  intros Hct Hst. unfold test1, test2.
  apply exceeds_mono; [|apply half_le; exact Hst].
  apply count_le. intros p. apply differs_non_grayscale. exact Hct.
Qed.

Lemma any_test_without_test1 ct st a :
  0 <= ct -> (0 <= st)%Q ->
  any_test ct st a = test2 st (sample a) || test3 st (sample a) || test4 st (sample a).
Proof.
  intros Hct Hst. unfold any_test.
  destruct (test1 ct st (sample a)) eqn:E; [|reflexivity].
  rewrite (test1_test2 ct st _ Hct Hst E). reflexivity.
Qed.

Lemma image_loop_ext ct st ct' st' :
  (forall a, any_test ct st a = any_test ct' st' a) ->
  forall entries hc, image_loop ct st entries hc = image_loop ct' st' entries hc.
Proof.
  intros H. induction entries as [|e entries IH]; intros hc; [reflexivity|].
  rewrite !image_loop_cons. destruct e as [[img|]|]; auto.
  rewrite !inspect_image_classify.
  destruct (classify img) as [| |cs|cs|cs a]; auto.
  - destruct (hc || cs_declares cs); auto.
  - rewrite H. destruct (any_test ct' st' a); auto.
Qed.

(** X1: for thresholds that are not negative the channel-difference test
    never decides: when it is positive the non-grayscale test is positive
    too, so the verdict of [is_color_page] does not depend on
    [color_threshold]. *)
Theorem color_threshold_is_irrelevant ct ct' st pg :
  0 <= ct -> 0 <= ct' -> (0 <= st)%Q ->
  (forall a, test1 ct st a = true -> test2 st a = true)
  /\ is_color_page ct st pg = is_color_page ct' st pg.
Proof.
  intros Hct Hct' Hst. split.
  - intros a. apply test1_test2; assumption.
  - rewrite !is_color_page_eq, !scan_images_eq.
    destruct (page_xobjects pg) as [[[entries|]|]|]; try reflexivity.
    rewrite (image_loop_ext ct st ct' st); [reflexivity|].
    intros a. rewrite !any_test_without_test1; auto.
Qed.

Lemma color_threshold_is_irrelevant_witness :
  is_color_page 3 (1 # 1000) (Samples.page_with [Ok (XImage Samples.grey_as_rgb)])
  = is_color_page 200 (1 # 1000) (Samples.page_with [Ok (XImage Samples.grey_as_rgb)]).
Proof.
  apply (color_threshold_is_irrelevant 3 200 (1 # 1000)); [lia|lia|discriminate].
Defined.

(** The image scan over entries that all resolve. *)
Lemma image_loop_verdict ct st : forall xs hc,
  verdict (image_loop ct st (map Ok xs) hc)
  = hc || existsb (fun x => declared x || positive ct st x) xs.
Proof.
  induction xs as [|x xs IH]; intros hc; simpl map.
  - unfold verdict. simpl. rewrite orb_false_r. reflexivity.
  - rewrite image_loop_cons. cbn [existsb]. destruct x as [img|].
    + rewrite inspect_image_classify. unfold declared, positive.
      destruct (classify img) as [| |cs|cs|cs a].
      * rewrite IH. reflexivity.
      * rewrite IH. reflexivity.
      * destruct hc, (cs_declares cs); simpl; try reflexivity.
        rewrite IH. reflexivity.
      * rewrite IH. destruct hc, (cs_declares cs); reflexivity.
      * destruct (any_test ct st a).
        -- unfold verdict. simpl. rewrite !orb_true_r. reflexivity.
        -- rewrite IH. destruct hc, (cs_declares cs); reflexivity.
    + rewrite IH. reflexivity.
Qed.

Lemma vector_signal_contents pg pg' :
  page_contents pg = page_contents pg' -> vector_signal pg = vector_signal pg'.
Proof.
  unfold vector_signal, scan_vectors. intros ->. reflexivity.
Qed.



Lemma existsb_perm {A} (f : A -> bool) l l' :
  Permutation l l' -> existsb f l = existsb f l'.
Proof.
  intros H. induction H; simpl.
  - reflexivity.
  - rewrite IHPermutation. reflexivity.
  - destruct (f x), (f y); reflexivity.
  - congruence.
Qed.

(** X3: when every XObject entry resolves, the verdict does not depend on
    the order in which the dictionary enumerates them. *)
Theorem verdict_ignores_enumeration_order ct st pg xs ys :
  Permutation xs ys ->
  is_color_page ct st (with_entries pg (map Ok xs))
  = is_color_page ct st (with_entries pg (map Ok ys)).
Proof.
  intros Hp.
  rewrite (is_color_page_loop ct st (with_entries pg (map Ok xs)) _ eq_refl).
  rewrite (is_color_page_loop ct st (with_entries pg (map Ok ys)) _ eq_refl).
  rewrite !image_loop_verdict.
  rewrite (existsb_perm _ xs ys Hp).
  rewrite (vector_signal_contents (with_entries pg (map Ok xs))
                                  (with_entries pg (map Ok ys)) eq_refl).
  reflexivity.
Qed.

Lemma verdict_ignores_enumeration_order_witness :
  is_color_page 3 (1 # 1000)
    (with_entries Samples.damaged_page
       (map Ok [XImage Samples.broken_grey; XImage Samples.grey_as_rgb]))
  = is_color_page 3 (1 # 1000)
    (with_entries Samples.damaged_page
       (map Ok [XImage Samples.grey_as_rgb; XImage Samples.broken_grey])).
Proof.
  apply verdict_ignores_enumeration_order. apply perm_swap.
Defined.

(** X4: entries that follow in the XObject dictionary, even ones that fail
    to resolve, never turn a [True] verdict into [False]. *)
Theorem more_entries_keep_true ct st pg entries more :
  is_color_page ct st (with_entries pg entries) = Ok true ->
  is_color_page ct st (with_entries pg (entries ++ more)) = Ok true.
Proof.
  rewrite (is_color_page_loop ct st (with_entries pg entries) entries eq_refl).
  rewrite (is_color_page_loop ct st (with_entries pg (entries ++ more))
             (entries ++ more) eq_refl).
  rewrite (vector_signal_contents (with_entries pg (entries ++ more))
                                  (with_entries pg entries) eq_refl).
  destruct (vector_signal (with_entries pg entries)); [reflexivity|]. simpl.
  intros [= H]. f_equal.
  unfold image_loop at 1. rewrite for_each_app. fold (image_loop ct st entries).
  destruct (image_loop_mono ct st entries false) as (o & hc & E & _ & Ho).
  rewrite E in H |- *. unfold verdict in H. simpl in H.
  destruct Ho as [->|[->| ->]]; simpl in H; subst; try reflexivity.
  fold (image_loop ct st more). apply flag_wins.
Qed.

Lemma more_entries_keep_true_witness :
  is_color_page 3 (1 # 1000)
    (with_entries Samples.damaged_page
       ([Ok (XImage Samples.grey_as_rgb)] ++ [Exn; Ok (XImage Samples.broken_grey)]))
  = Ok true.
Proof.
  apply (more_entries_keep_true 3 (1 # 1000) Samples.damaged_page
           [Ok (XImage Samples.grey_as_rgb)] [Exn; Ok (XImage Samples.broken_grey)]).
  vm_compute. reflexivity.
Defined.

End ColorMore.

(** * Gray operands *)
Module GrayFacts.
Import Py Color ColorSpec ScanMoreSpec ColorFacts.

(** What [findall] gives for the two gray patterns: the operand, a
    string. *)
Lemma gray_findall_shape c s m :
  Re.ngroups (op c) = O ->
  In m (Re.findall (gray_pattern c) s) ->
  exists w, m = Re.Str w /\ accepts number w.
Proof.
  intros Hop Hin. unfold Re.findall in Hin.
  assert (Hn : Re.ngroups (gray_pattern c) = 1%nat) by (simpl; rewrite Hop; reflexivity).
  rewrite Hn in Hin. apply in_map_iff in Hin. destruct Hin as (cs & <- & Hin).
  apply ReFacts.scan_in in Hin. destruct Hin as (pv & s' & st' & Hrun & <-).
  unfold gray_pattern, then_ws in Hrun.
  apply ReFacts.run_cat in Hrun. destruct Hrun as (s0 & H0 & Hrun).
  pose proof (ReFacts.run_caps Re.Bnd _ _ eq_refl H0) as C0. simpl in C0.
  apply ReFacts.run_cat in Hrun. destruct Hrun as (s1 & H1 & Hrun).
  apply ReFacts.run_group in H1; [|reflexivity]. destruct H1 as (w & _ & Aw & C1).
  apply ReFacts.run_cat in Hrun. destruct Hrun as (s2 & H2 & Hrun).
  pose proof (ReFacts.run_caps (Re.Plus Latin1.is_space) _ _ eq_refl H2) as C2.
  pose proof (ReFacts.run_caps (op c) _ _ Hop Hrun) as C3.
  exists w. split; [|exact Aw].
  rewrite C3, C2, C1, C0. reflexivity.
Qed.

(** An operand that is not three characters long is passed over. *)
Lemma check_match_operand {S} w (s : S) :
  accepts number w -> length w <> 3%nat ->
  check_match (Re.Str w) s = (Normal tt, s).
Proof.
  intros Hw Hlen. unfold check_match, Re.len.
  destruct (Nat.eqb_spec (length w) 3) as [E|_]; [contradiction|].
  destruct (Nat.eqb_spec (length w) 1) as [E|_]; [|reflexivity].
  destruct w as [|c [|d w]]; try discriminate.
  destruct (NumberFacts.number_is_float [c] Hw) as (x & Hx).
  unfold float_item. simpl. rewrite Hx. reflexivity.
Qed.

Lemma digit_cases c : Latin1.is_digit c = true -> In c digits10.
Proof.
  destruct c as [[] [] [] [] [] [] [] []]; vm_compute; intros H;
    try discriminate; tauto.
Qed.

(** On single digits [float] is defined and injective. *)
Lemma digit_floats a b :
  Latin1.is_digit a = true -> Latin1.is_digit b = true ->
  exists x y, F64.py_float [a] = Some x /\ F64.py_float [b] = Some y
              /\ F64.eqb x y = Ascii.eqb a b.
Proof.
  intros Ha Hb.
  assert (H : forallb (fun a => forallb (fun b =>
                match F64.py_float [a], F64.py_float [b] with
                | Some x, Some y => Bool.eqb (F64.eqb x y) (Ascii.eqb a b)
                | _, _ => false
                end) digits10) digits10 = true) by (vm_compute; reflexivity).
  rewrite forallb_forall in H. specialize (H a (digit_cases a Ha)).
  rewrite forallb_forall in H. specialize (H b (digit_cases b Hb)).
  destruct (F64.py_float [a]) as [x|]; [|discriminate].
  destruct (F64.py_float [b]) as [y|]; [|discriminate].
  exists x, y. repeat split. apply Bool.eqb_prop. exact H.
Qed.

(** A three-digit operand is read as three numbers, one per digit. *)
Lemma check_match_three_digits {S} a b c (s : S) :
  forallb Latin1.is_digit [a; b; c] = true ->
  check_match (Re.Str [a; b; c]) s
  = (if Ascii.eqb a b && Ascii.eqb b c then Normal tt else Returned true, s).
Proof.
  simpl. intros H.
  apply andb_true_iff in H. destruct H as [Ha H].
  apply andb_true_iff in H. destruct H as [Hb H].
  apply andb_true_iff in H. destruct H as [Hc _].
  destruct (digit_floats a b Ha Hb) as (x & y & Ex & Ey & Exy).
  destruct (digit_floats b c Hb Hc) as (y' & z & Ey' & Ez & Eyz).
  rewrite Ey in Ey'. injection Ey' as <-.
  unfold check_match, float_item. simpl. rewrite Ex, Ey, Ez. py.
  rewrite Exy, Eyz. destruct (Ascii.eqb a b && Ascii.eqb b c); reflexivity.
Qed.

Lemma operand_loop {S} ms (s : S) :
  (forall m, In m ms -> exists w, m = Re.Str w /\ accepts number w) ->
  forallb (fun m => negb (three_long m)) ms = true ->
  for_each ms check_match s = (Normal tt, s).
Proof.
  induction ms as [|m ms IH]; intros Hms Hlen; simpl; [reflexivity|].
  simpl in Hlen. apply andb_true_iff in Hlen. destruct Hlen as [Hm Hlen].
  destruct (Hms m (or_introl eq_refl)) as (w & -> & Hw).
  rewrite (check_match_operand w s Hw).
  - apply IH; [|exact Hlen]. intros m' Hm'. apply Hms. right. exact Hm'.
  - apply negb_true_iff in Hm. unfold three_long in Hm. simpl in Hm.
    apply Nat.eqb_neq. exact Hm.
Qed.

Lemma rgb_loops_pass {S} t (s : S) c :
  Re.ngroups (op c) = O ->
  existsb colored (Re.findall (rgb_pattern c) t) = false ->
  for_each (Re.findall (rgb_pattern c) t) check_match s = (Normal tt, s).
Proof.
  intros Hop H.
  rewrite (rgb_loop (Re.findall (rgb_pattern c) t) s
             (fun m => NumberFacts.rgb_findall_shape c t m Hop)), H.
  reflexivity.
Qed.

Lemma content_scan pg t (s : bool) :
  content_data pg = Some t -> scan_vectors pg s =
  match scan_patterns (Some t) s with
  | (Raised, s') => (Normal tt, s')
  | o => o
  end.
Proof.
  unfold content_data, scan_vectors. intros Hc.
  destruct (page_contents pg) as [[c|]|]; try discriminate. py.
  destruct (read_contents c) as [[t'|]|]; try discriminate.
  injection Hc as ->.
  destruct (scan_patterns (Some t) s) as [[[]| |r|] s']; reflexivity.
Qed.

(** X5: a gray operand is a plain string for [findall], and
    [len(match) == 3] is the length of that string.  When no RGB triple is
    colored and the first gray-fill operand of three characters is made of
    three digits that are not all equal (as in [128 g]), the digits are
    read as an RGB triple and the page is classified as colored. *)
Theorem three_digit_gray_operand_colors_page ct st pg t pre a b c post :
  content_data pg = Some t ->
  existsb colored (rgb_triples t) = false ->
  Re.findall (gray_pattern "g") t = pre ++ Re.Str [a; b; c] :: post ->
  forallb (fun m => negb (three_long m)) pre = true ->
  forallb Latin1.is_digit [a; b; c] = true ->
  Ascii.eqb a b && Ascii.eqb b c = false ->
  is_color_page ct st pg = Ok true.
Proof.
  intros Hc Hrgb Hg Hpre Hd Hne.
  unfold rgb_triples in Hrgb. rewrite existsb_app in Hrgb.
  apply orb_false_iff in Hrgb. destruct Hrgb as [Hfill Hstroke].
  rewrite is_color_page_eq. unfold vector_signal.
  rewrite (content_scan pg t false Hc).
  unfold scan_patterns, color_patterns. cbn [for_each]. py.
  rewrite (rgb_loops_pass t false "rg" eq_refl Hfill).
  rewrite (rgb_loops_pass t false "RG" eq_refl Hstroke).
  rewrite Hg, for_each_app.
  rewrite (operand_loop pre false).
  - cbn [for_each]. rewrite (check_match_three_digits a b c false Hd), Hne.
    reflexivity.
  - intros m Hm. apply (gray_findall_shape "g" t m eq_refl).
    rewrite Hg. apply in_or_app. left. exact Hm.
  - exact Hpre.
Qed.

Lemma three_digit_gray_operand_colors_page_witness :
  is_color_page 3 (1 # 1000) (Samples.page_drawing "0 0 0 rg 1 g 128 g") = Ok true.
Proof.
  apply (three_digit_gray_operand_colors_page 3 (1 # 1000)
           (Samples.page_drawing "0 0 0 rg 1 g 128 g") (str "0 0 0 rg 1 g 128 g")
           [Re.Str (str "1")] "1"%char "2"%char "8"%char []);
    vm_compute; reflexivity.
Defined.

(** X6: when no RGB triple is colored and no gray operand is three
    characters long, the content stream gives no signal. *)
Theorem gray_operands_give_no_signal pg t :
  content_data pg = Some t ->
  existsb colored (rgb_triples t) = false ->
  forallb (fun m => negb (three_long m)) (gray_operands t) = true ->
  vector_signal pg = false.
Proof.
  intros Hc Hrgb Hlen.
  unfold rgb_triples in Hrgb. rewrite existsb_app in Hrgb.
  apply orb_false_iff in Hrgb. destruct Hrgb as [Hfill Hstroke].
  unfold gray_operands in Hlen. rewrite forallb_app in Hlen.
  apply andb_true_iff in Hlen. destruct Hlen as [Hg HG].
  unfold vector_signal. rewrite (content_scan pg t false Hc).
  unfold scan_patterns, color_patterns. cbn [for_each]. py.
  rewrite (rgb_loops_pass t false "rg" eq_refl Hfill).
  rewrite (rgb_loops_pass t false "RG" eq_refl Hstroke).
  rewrite (operand_loop _ false (fun m => gray_findall_shape "g" t m eq_refl) Hg).
  rewrite (operand_loop _ false (fun m => gray_findall_shape "G" t m eq_refl) HG).
  reflexivity.
Qed.

Lemma gray_operands_give_no_signal_witness :
  vector_signal (Samples.page_drawing "0 0 0 rg 0.25 g 1 G") = false.
Proof.
  apply (gray_operands_give_no_signal
           (Samples.page_drawing "0 0 0 rg 0.25 g 1 G") (str "0 0 0 rg 0.25 g 1 G"));
    vm_compute; reflexivity.
Defined.

End GrayFacts.

(** * Sampling *)
Module SampleFacts.
Import Py Color ColorSpec ScanMoreSpec.

Lemma stride_from_length {A} step : (1 <= step)%nat -> forall (l : list A) k,
  length (stride_from k step l)
  = if (length l <=? k)%nat then O else S ((length l - k - 1) / step).
Proof.
  intros Hs. induction l as [|x l IH]; intros k; simpl.
  - reflexivity.
  - destruct k as [|k]; simpl.
    + rewrite IH. rewrite Nat.sub_0_r.
      destruct (Nat.leb_spec (length l) (pred step)) as [H|H].
      * rewrite Nat.div_small; [reflexivity|lia].
      * f_equal.
        replace (length l) with ((length l - pred step - 1) + 1 * step)%nat at 2 by lia.
        rewrite Nat.div_add; lia.
    + rewrite IH. destruct (Nat.leb_spec (length l) k) as [H|H];
        destruct (Nat.leb_spec (length l) k); try lia; reflexivity.
Qed.

Lemma stride_one {A} (l : list A) : stride 1 l = l.
Proof.
  unfold stride. change (Z.to_nat 1) with 1%nat.
  induction l as [|x l IH]; simpl; [reflexivity|]. f_equal. exact IH.
Qed.

(** [ceil(n / step)] *)
Lemma stride_length {A} step (l : list A) :
  1 <= step ->
  Z.of_nat (length (stride step l)) = (Z.of_nat (length l) + step - 1) / step.
Proof.
  intros Hs. unfold stride.
  rewrite stride_from_length by lia.
  destruct l as [|x l]; simpl length.
  - simpl. symmetry. apply Z.div_small. lia.
  - cbn [Nat.leb]. rewrite Nat.sub_0_r.
    replace (S (length l) - 1)%nat with (length l) by lia.
    rewrite Nat2Z.inj_succ, Nat2Z.inj_div, Z2Nat.id by lia.
    replace (Z.of_nat (S (length l)) + step - 1)
      with (Z.of_nat (length l) + 1 * step) by lia.
    rewrite Z.div_add by lia. lia.
Qed.

Lemma sample_step_pos a : 1 <= sample_step a.
Proof. unfold sample_step. lia. Qed.

Lemma sample_shape0 a :
  shape0 a * shape1 a > 1000000 ->
  shape0 (sample a) = (shape0 a + sample_step a - 1) / sample_step a.
Proof.
  intros H. unfold sample. fold (sample_step a).
  destruct (Z.gtb_spec (shape0 a * shape1 a) 1000000) as [_|]; [|lia].
  unfold shape0 at 1. rewrite length_map.
  apply stride_length. apply sample_step_pos.
Qed.

Lemma sample_shape1 a :
  shape0 a * shape1 a > 1000000 ->
  shape1 (sample a) = (shape1 a + sample_step a - 1) / sample_step a.
Proof.
  intros H. unfold sample. fold (sample_step a).
  destruct (Z.gtb_spec (shape0 a * shape1 a) 1000000) as [_|]; [|lia].
  destruct a as [|row a]; [simpl in H; lia|].
  pose proof (sample_step_pos (row :: a)) as Hs.
  unfold stride at 2.
  destruct (Z.to_nat (sample_step (row :: a))) eqn:E; [lia|].
  cbn [stride_from map shape1].
  apply stride_length. exact Hs.
Qed.

Lemma ceil_bound m :
  0 <= m -> (m + Z.max 1 (m / 100) - 1) / Z.max 1 (m / 100) <= 199.
Proof.
  intros Hm.
  destruct (Z.lt_ge_cases m 100) as [H|H].
  - rewrite (Z.div_small m 100) by lia. change (Z.max 1 0) with 1.
    rewrite Z.div_1_r. lia.
  - assert (Hq : 1 <= m / 100) by (apply Z.div_le_lower_bound; lia).
    rewrite Z.max_r by lia.
    pose proof (Z.div_mod m 100 ltac:(lia)) as Hdm.
    pose proof (Z.mod_pos_bound m 100 ltac:(lia)) as Hr.
    set (q := m / 100) in *. set (r := m mod 100) in *.
    apply Z.lt_succ_r. apply Z.div_lt_upper_bound; [lia|]. nia.
Qed.

Lemma ceil_mono a b s : 1 <= s -> a <= b -> (a + s - 1) / s <= (b + s - 1) / s.
Proof.
  intros Hs Hab. apply Z.div_le_mono; lia.
Qed.

(** X7: an array of more than 1,000,000 pixels is sampled with the step
    [max(1, min(H, W) // 100)]: its two dimensions become [ceil(H / step)]
    and [ceil(W / step)], and the smaller one is at most 199. *)
Theorem sample_bounds a :
  shape0 a * shape1 a > 1000000 ->
  shape0 (sample a) = (shape0 a + sample_step a - 1) / sample_step a
  /\ shape1 (sample a) = (shape1 a + sample_step a - 1) / sample_step a
  /\ Z.min (shape0 (sample a)) (shape1 (sample a)) <= 199.
Proof.
  intros H. rewrite (sample_shape0 a H), (sample_shape1 a H).
  split; [reflexivity|]. split; [reflexivity|].
  assert (H0 : 0 <= shape0 a) by (unfold shape0; lia).
  assert (H1 : 0 <= shape1 a) by (unfold shape1; destruct a; lia).
  unfold sample_step.
  destruct (Z.le_ge_cases (shape0 a) (shape1 a)) as [L|L].
  - rewrite (Z.min_l (shape0 a) (shape1 a)) by lia.
    etransitivity; [apply Z.le_min_l|]. apply ceil_bound. exact H0.
  - rewrite (Z.min_r (shape0 a) (shape1 a)) by lia.
    etransitivity; [apply Z.le_min_r|]. apply ceil_bound. exact H1.
Qed.

Lemma sample_bounds_witness :
  Z.min (shape0 (sample big_grey)) (shape1 (sample big_grey)) <= 199.
Proof.
  apply (sample_bounds big_grey). vm_compute. reflexivity.
Defined.

(** X8: sampling leaves an array as it is when it has at most 1,000,000
    pixels, and also when one of its dimensions is below 200, however many
    pixels it has (the step is then 1). *)
Theorem thin_arrays_are_not_sampled a :
  shape0 a < 200 \/ shape1 a < 200 \/ shape0 a * shape1 a <= 1000000 ->
  sample a = a.
Proof.
  intros H. unfold sample.
  destruct (Z.gtb_spec (shape0 a * shape1 a) 1000000) as [Hbig|]; [|reflexivity].
  assert (H0 : 0 <= shape0 a) by (unfold shape0; lia).
  assert (H1 : 0 <= shape1 a) by (unfold shape1; destruct a; lia).
  assert (Hm : Z.min (shape0 a) (shape1 a) < 200) by lia.
  assert (Hs : Z.max 1 (Z.min (shape0 a) (shape1 a) / 100) = 1).
  { assert (Z.min (shape0 a) (shape1 a) / 100 < 2)
      by (apply Z.div_lt_upper_bound; lia).
    lia. }
  rewrite Hs, stride_one.
  induction a as [|row a IH]; simpl; [reflexivity|].
  rewrite stride_one. f_equal.
  clear. induction a as [|r a IH]; simpl; [reflexivity|].
  rewrite stride_one, IH. reflexivity.
Qed.

Lemma thin_arrays_are_not_sampled_witness :
  shape0 thin_grey * shape1 thin_grey > 1000000 /\ sample thin_grey = thin_grey.
Proof.
  split; [vm_compute; reflexivity|].
  apply thin_arrays_are_not_sampled. left. vm_compute. reflexivity.
Defined.

End SampleFacts.

(** * Content lists and colorspace names *)
Module ContentFacts.
Import Py Color ColorSpec ScanMoreSpec ColorFacts.

Lemma concat_streams_eq : forall items acc,
  concat_streams items acc
  = if existsb item_fails items then Exn else Ok (acc ++ flat_map item_text items).
Proof.
  induction items as [|[[d|]|] items IH]; intros acc; simpl.
  - rewrite app_nil_r. reflexivity.
  - rewrite IH. destruct (existsb item_fails items); [reflexivity|].
    rewrite <- app_assoc. reflexivity.
  - reflexivity.
  - apply IH.
Qed.

(** X15: the streams of a content list are scanned as one text, the
    concatenation of the items that have [get_data], in order; when one
    item fails to decode nothing is scanned and the page gives no vector
    signal. *)
Theorem content_list_is_scanned_whole pg items :
  page_contents pg = Some (Ok (StreamList items)) ->
  content_data pg
  = (if existsb item_fails items then None else Some (flat_map item_text items))
  /\ (existsb item_fails items = true -> vector_signal pg = false).
Proof.
  intros Hp.
  assert (E : content_data pg
              = if existsb item_fails items then None
                else Some (flat_map item_text items)).
  { unfold content_data. rewrite Hp. unfold read_contents.
    rewrite concat_streams_eq. destruct (existsb item_fails items); reflexivity. }
  split; [exact E|].
  intros Hf. rewrite Hf in E.
  apply ColorClaims.unread_contents_no_signal. exact E.
Qed.

Lemma content_list_is_scanned_whole_witness :
  content_data
    (Page (Ok None)
          (Some (Ok (StreamList [Some (Ok (str "1 0 ")); None; Some (Ok (str "0 rg"))])))
          (Ok None))
  = Some (str "1 0 0 rg").
Proof.
  apply (proj1 (content_list_is_scanned_whole
                  (Page (Ok None)
                        (Some (Ok (StreamList
                                     [Some (Ok (str "1 0 ")); None; Some (Ok (str "0 rg"))])))
                        (Ok None))
                  [Some (Ok (str "1 0 ")); None; Some (Ok (str "0 rg"))] eq_refl)).
Defined.

Lemma substring_prefix : forall b s,
  substring 0 b (substring 0 b s) = substring 0 b s.
Proof.
  induction b as [|b IH]; intros [|c s]; simpl; try reflexivity.
  rewrite IH. reflexivity.
Qed.

Lemma substring_window : forall a b s,
  substring a b (substring 0 (a + b) s) = substring a b s.
Proof.
  induction a as [|a IH]; intros b s; simpl.
  - apply substring_prefix.
  - destruct s as [|c s]; simpl; [destruct b; reflexivity|]. apply IH.
Qed.

Lemma substring_shift : forall m a b s,
  substring a b (substring m (a + b) s) = substring (m + a) b s.
Proof.
  induction m as [|m IH]; intros a b s; simpl.
  - apply substring_window.
  - destruct s as [|c s]; simpl.
    + destruct (a + b)%nat, a, b; reflexivity.
    + apply IH.
Qed.

(** A name that contains DeviceRGB contains RGB. *)
Lemma contains_device_rgb n :
  contains "DeviceRGB" n = true -> contains "RGB" n = true.
Proof.
  unfold contains.
  destruct (index 0 "DeviceRGB" n) as [m|] eqn:E; [intros _|discriminate].
  apply index_correct1 in E.
  destruct (index 0 "RGB" n) eqn:E3; [reflexivity|exfalso].
  apply (index_correct3 0 (m + 6) "RGB" n E3); [discriminate|lia|].
  change (String.length "RGB") with 3%nat.
  rewrite <- (substring_shift m 6 3 n).
  change (String.length "DeviceRGB") with (6 + 3)%nat in E. rewrite E. reflexivity.
Qed.

(** X16: the entry 'DeviceRGB' of the list of colour families is covered by
    'RGB': a colorspace name declares colour exactly when it contains
    'RGB' or 'Lab'. *)
Theorem device_rgb_entry_is_redundant cs_name :
  declares_color cs_name = contains "RGB" cs_name || contains "Lab" cs_name.
Proof.
  unfold declares_color. simpl.
  destruct (contains "RGB" cs_name) eqn:E; [reflexivity|].
  destruct (contains "Lab" cs_name); [reflexivity|]. simpl.
  destruct (contains "DeviceRGB" cs_name) eqn:D; [|reflexivity].
  rewrite (contains_device_rgb cs_name D) in E. discriminate.
Qed.

End ContentFacts.

(** * More about the figures *)
Module FigureMore.
Import Py Color Figures FigureSpec FigureMoreSpec FigureFacts ColorFacts.

(** *** Captions *)








Lemma lstrip_all p s : forallb p s = true -> lstrip p s = [].
Proof.
  induction s as [|c s IH]; simpl; [reflexivity|].
  intros H. apply andb_true_iff in H. destruct H as [-> H]. apply IH, H.
Qed.

Lemma rstrip_all p s : forallb p s = true -> rstrip p s = [].
Proof.
  intros H. unfold rstrip. rewrite lstrip_all; [reflexivity|].
  rewrite forallb_forall in *. intros x Hx. apply H. apply in_rev. exact Hx.
Qed.

Lemma extract_loop_in {R} : forall ms figures,
  (forall m, In m ms -> exists c i cap, m = Re.Tuple [c; i; cap]) ->
  exists added,
    for_each ms (@record_match R) figures = (Normal tt, figures ++ added)
    /\ forall c i cap, In (Re.Tuple [c; i; cap]) ms -> strip cap <> [] ->
         In (c ++ str "-" ++ i, rstrip (Latin1.is_char ".") (strip cap)) added.
Proof.
  induction ms as [|m ms IH]; intros figures Hms.
  - exists []. rewrite app_nil_r. split; [reflexivity|]. intros c i cap [].
  - destruct (Hms m (or_introl eq_refl)) as (c & i & cap & ->).
    assert (Hms' : forall m, In m ms -> exists c i cap, m = Re.Tuple [c; i; cap]).
    { intros m Hm. apply Hms. right. exact Hm. }
    cbn [for_each]. unfold record_match at 1. cbn [tuple3]. py.
    destruct (strip cap) as [|x cap'] eqn:Ecap.
    + destruct (IH figures Hms') as (added & E & Hin).
      exists added. split; [exact E|].
      intros c0 i0 cap0 [Heq|Hm] Hne; [|apply Hin; assumption].
      injection Heq as -> -> ->. congruence.
    + destruct (IH (figures ++ [(c ++ str "-" ++ i, rstrip (Latin1.is_char ".") (x :: cap'))]) Hms')
        as (added & E & Hin).
      exists ((c ++ str "-" ++ i, rstrip (Latin1.is_char ".") (x :: cap')) :: added).
      split; [etransitivity; [exact E|rewrite <- app_assoc; reflexivity]|].
      intros c0 i0 cap0 [Heq|Hm] Hne; [|right; apply Hin; assumption].
      injection Heq as -> -> ->. left. rewrite Ecap. reflexivity.
Qed.

(** X17: the guard [if caption:] is applied before the trailing periods
    are removed.  A match of the pattern whose caption, once stripped, is
    not empty and made of periods only is recorded with an empty caption,
    and [has_figure_pattern] is [True] on its page. *)
Theorem periods_only_caption_is_kept_empty pg t chapter_num image_num caption :
  extract_text pg = Ok (Some t) ->
  In (Re.Tuple [chapter_num; image_num; caption]) (Re.findall figure_pattern t) ->
  strip caption <> [] ->
  forallb (Latin1.is_char ".") (strip caption) = true ->
  exists l, extract_figure_info pg = Ok l
    /\ In (chapter_num ++ str "-" ++ image_num, []) l
    /\ has_figure_pattern pg = Ok true.
Proof.
  intros Ht Hin Hne Hp.
  assert (E : exists l, extract_figure_info pg = Ok l
                /\ In (chapter_num ++ str "-" ++ image_num, []) l).
  { unfold extract_figure_info, call, extract_figure_info_body. rewrite Ht.
    destruct t as [|x t]; [destruct Hin|]. py. simpl.
    destruct (@extract_loop_in (list figure_info) (Re.findall figure_pattern (x :: t)) [])
      as (added & E & Hadd).
    { intros m Hm. destruct (figure_findall_shape _ m Hm) as (c & i & cap & -> & _).
      eauto. }
    rewrite E. simpl. exists added. split; [reflexivity|].
    rewrite <- (rstrip_all (Latin1.is_char ".") (strip caption) Hp).
    apply Hadd; assumption. }
  destruct E as (l & E & Hl). exists l. repeat split; try assumption.
  unfold has_figure_pattern. rewrite E.
  destruct l as [|f l]; [destruct Hl|reflexivity].
Qed.

Lemma periods_only_caption_is_kept_empty_witness :
  extract_figure_info (Samples.page_saying (str "Figure 7-1. ...")) = Ok [(str "7-1", [])]
  /\ has_figure_pattern (Samples.page_saying (str "Figure 7-1. ...")) = Ok true.
Proof.
  split; [vm_compute; reflexivity|].
  destruct (periods_only_caption_is_kept_empty
              (Samples.page_saying (str "Figure 7-1. ...")) (str "Figure 7-1. ...")
              (str "7") (str "1") (str "...")) as (l & _ & _ & H).
  - reflexivity.
  - vm_compute. left. reflexivity.
  - vm_compute. discriminate.
  - vm_compute. reflexivity.
  - exact H.
Defined.


(** *** The records of a run *)

Lemma page_loop_collect off : forall pages i s,
  exists fp,
    for_each (enumerate i pages) (visit_page off) s
    = (if existsb unreadable pages then Raised else Normal tt,
       Locals fp (all_figures s ++ collect off i pages) (written s)).
Proof.
  induction pages as [|p pages IH]; intros i s.
  - exists (figure_pages s). destruct s. simpl. rewrite app_nil_r. auto.
  - cbn [enumerate for_each existsb collect]. destruct p as [pg|].
    + destruct (visit_page_ok off i pg s) as (l & fp & E & _ & ->).
      destruct (IH (i + 1) (Locals fp (all_figures s ++ figures_of off i l) (written s)))
        as (fp' & ->).
      exists fp'. unfold page_figures. rewrite E. simpl.
      rewrite <- app_assoc. reflexivity.
    + exists (figure_pages s). destruct s. simpl. rewrite app_nil_r. auto.
Qed.

Lemma collect_recorded off : forall pages i, Forall (recorded off) (collect off i pages).
Proof.
  induction pages as [|[pg|] pages IH]; intros i; simpl; try constructor.
  apply Forall_app. split; [|apply IH].
  unfold page_figures. destruct (extract_figure_info_ok pg) as (l & -> & Hwn).
  unfold figures_of. apply Forall_map.
  revert Hwn. apply Forall_impl. intros fc Hfc. split; [reflexivity|exact Hfc].
Qed.

Lemma sorted_by_key_recorded off l :
  Forall (recorded off) l -> exists sorted, sorted_by_key l = Ok sorted.
Proof.
  intros H. unfold sorted_by_key.
  assert (Hk : exists ks, with_keys l = Ok ks).
  { induction H as [|f l Hf _ (ks & IH)]; simpl; [eauto|].
    destruct (sort_key_well_numbered f (proj2 Hf)) as (k & ->). rewrite IH. eauto. }
  destruct Hk as (ks & ->). eauto.
Qed.

(** The whole run, with its records named. *)
Lemma run_exact w off :
  exists fp,
    match pdf w with
    | Exn => run_find_figure_pages w off = (Returned [], Locals [] [] [])
    | Ok pages =>
        let all := collect off 0 pages in
        if existsb unreadable pages || negb (output_opens w)
        then run_find_figure_pages w off = (Returned [], Locals fp all [])
        else exists sorted,
            sorted_by_key (book_figures all) = Ok sorted
            /\ run_find_figure_pages w off
               = (Returned (map book_page (book_figures all)),
                  Locals fp all (report_of (Z.of_nat (length pages)) off all sorted))
    end.
Proof.
  unfold run_find_figure_pages, find_figure_pages_body.
  destruct (pdf w) as [pages|]; py.
  2:{ exists []. reflexivity. }
  destruct (page_loop_collect off pages 0 (Locals [] [] [])) as (fp & ->).
  cbn [all_figures written figure_pages app]. exists fp. cbv zeta.
  destruct (existsb unreadable pages); [reflexivity|]. simpl orb.
  destruct (output_opens w); [|reflexivity]. simpl negb. cbv iota.
  assert (Hb : Forall (recorded off) (book_figures (collect off 0 pages))).
  { unfold book_figures. apply Forall_forall. intros f Hf.
    apply filter_In in Hf.
    pose proof (collect_recorded off pages 0) as Hrec.
    rewrite Forall_forall in Hrec. apply Hrec, Hf. }
  destruct (sorted_by_key_recorded off _ Hb) as (sorted & Hs).
  exists sorted. split; [exact Hs|].
  rewrite write_eq. cbv beta iota zeta. rewrite Hs.
  rewrite write_loop. cbn [all_figures written figure_pages app].
  unfold report_of.
  destruct (front_matter_figures (collect off 0 pages)) as [|f front]; cbv beta iota zeta.
  - rewrite app_nil_r. reflexivity.
  - rewrite write_eq. cbv beta iota zeta. rewrite write_loop.
    cbn [all_figures written figure_pages app].
    rewrite <- !app_assoc. reflexivity.
Qed.

Lemma run_view w off :
  exists fp wr,
    final_locals w off = Locals fp (records w off) wr
    /\ if stops_early w
       then wr = [] /\ find_figure_pages w off = Ok []
       else exists sorted,
           sorted_by_key (book_figures (records w off)) = Ok sorted
           /\ wr = report_of (page_count w) off (records w off) sorted
           /\ find_figure_pages w off
              = Ok (map book_page (book_figures (records w off))).
Proof.
  destruct (run_exact w off) as (fp & H).
  unfold final_locals, find_figure_pages, call, records, stops_early,
    document_fails, page_count.
  fold (run_find_figure_pages w off).
  destruct (pdf w) as [pages|].
  - cbv zeta in H.
    destruct (existsb unreadable pages || negb (output_opens w)).
    + rewrite H. simpl. eauto.
    + destruct H as (sorted & Hs & ->). simpl. eauto 8.
  - rewrite H. simpl. eauto.
Qed.

Lemma sorted_app {A} (R : A -> A -> Prop) l1 l2 :
  StronglySorted R l1 -> StronglySorted R l2 ->
  (forall a b, In a l1 -> In b l2 -> R a b) ->
  StronglySorted R (l1 ++ l2).
Proof.
  intros H1 H2 H. induction H1 as [|a l1 Hl IH Ha]; simpl; [exact H2|].
  constructor.
  - apply IH. intros x y Hx Hy. apply H; [right; exact Hx|exact Hy].
  - apply Forall_app. split; [exact Ha|].
    apply Forall_forall. intros b Hb. apply H; [left; reflexivity|exact Hb].
Qed.

Lemma sorted_uniform {A} (R : A -> A -> Prop) (P : A -> Prop) l :
  (forall a b, P a -> P b -> R a b) -> Forall P l -> StronglySorted R l.
Proof.
  intros H Hl. induction Hl as [|a l Ha Hl IH]; constructor; [exact IH|].
  revert Hl. apply Forall_impl. intros b Hb. apply H; assumption.
Qed.

Lemma collect_pages off : forall pages i,
  Forall (fun f => i + 1 <= pdf_page f <= i + Z.of_nat (length pages)
                   /\ book_page f = pdf_page f - off) (collect off i pages)
  /\ StronglySorted (fun a b => pdf_page a <= pdf_page b) (collect off i pages).
Proof.
  induction pages as [|[pg|] pages IH]; intros i; simpl collect;
    try (split; constructor).
  destruct (IH (i + 1)) as (Hb & Hs).
  assert (Hp : Forall (fun f => pdf_page f = i + 1 /\ book_page f = i + 1 - off)
                      (page_figures off i pg)).
  { unfold page_figures. destruct (extract_figure_info pg) as [l|]; [|constructor].
    unfold figures_of. apply Forall_map. apply Forall_forall. intros; auto. }
  split.
  - apply Forall_app. split.
    + revert Hp. apply Forall_impl. intros f (E1 & E2).
      rewrite E1, E2. simpl length. lia.
    + revert Hb. apply Forall_impl. intros f H. simpl length. lia.
  - apply sorted_app; [|exact Hs|].
    + revert Hp. apply sorted_uniform. intros a b (Ea & _) (Eb & _). lia.
    + rewrite Forall_forall in Hp, Hb. intros a b Ha Hb'.
      destruct (Hp a Ha) as (-> & _). destruct (Hb b Hb') as ((L & _) & _). lia.
Qed.




(** *** The report *)




(** *** Stability of the sort *)







(** *** Documents without figures, offsets *)

Lemma without_figure_collect off : forall pages i,
  forallb without_figure pages = true -> collect off i pages = [].
Proof.
  induction pages as [|p pages IH]; intros i H; simpl; [reflexivity|].
  simpl in H. apply andb_true_iff in H. destruct H as [Hp H].
  destruct p as [pg|]; [|reflexivity].
  rewrite (IH (i + 1) H), app_nil_r.
  unfold without_figure, has_figure_pattern in Hp. unfold page_figures.
  destruct (extract_figure_info pg) as [[|fc l]|]; try discriminate; reflexivity.
Qed.

Lemma without_figure_readable pages :
  forallb without_figure pages = true -> existsb unreadable pages = false.
Proof.
  induction pages as [|[pg|] pages IH]; simpl; try reflexivity; try discriminate.
  intros H. apply andb_true_iff in H. apply IH, H.
Qed.

(** X13: when no page of a readable document has a figure with a caption
    ([has_figure_pattern] is [False] on each), [find_figure_pages]
    returns the empty list and the report is a header with zero counts, or
    nothing when the output file does not open. *)
Theorem document_without_figures w off pages :
  pdf w = Ok pages ->
  forallb without_figure pages = true ->
  find_figure_pages w off = Ok []
  /\ all_figures (final_locals w off) = []
  /\ written (final_locals w off)
     = if output_opens w then [Header (Z.of_nat (length pages)) off 0 0 0] else [].
Proof.
  intros Hp Hn. destruct (run_view w off) as (fp & wr & -> & H).
  cbn [all_figures written].
  assert (Er : records w off = []).
  { unfold records. rewrite Hp. apply without_figure_collect. exact Hn. }
  assert (Es : stops_early w = negb (output_opens w)).
  { unfold stops_early, document_fails. rewrite Hp, (without_figure_readable pages Hn).
    reflexivity. }
  rewrite Er, Es in *. destruct (output_opens w); simpl in H.
  - destruct H as (sorted & Hs & -> & ->). injection Hs as <-.
    unfold page_count. rewrite Hp. auto.
  - destruct H as (-> & ->). auto.
Qed.

Lemma document_without_figures_witness :
  find_figure_pages (Samples.document [str "Figure 3-2"; str "no figure here"]) 33 = Ok [].
Proof.
  apply (document_without_figures
           (Samples.document [str "Figure 3-2"; str "no figure here"]) 33
           [Ok (Samples.page_saying (str "Figure 3-2"));
            Ok (Samples.page_saying (str "no figure here"))]).
  - reflexivity.
  - vm_compute. reflexivity.
Defined.

(** X14: with an offset that is not positive no record is front matter;
    with an offset of at least the number of pages no record is book
    content and [find_figure_pages] returns the empty list. *)
Theorem offset_extremes w off :
  (off <= 0 -> front_matter_figures (all_figures (final_locals w off)) = [])
  /\ (page_count w <= off ->
      book_figures (all_figures (final_locals w off)) = []
      /\ find_figure_pages w off = Ok []).
Proof.
  destruct (run_view w off) as (fp & wr & -> & H). cbn [all_figures].
  assert (Hb : Forall (fun f => 1 <= pdf_page f <= page_count w
                                /\ book_page f = pdf_page f - off) (records w off)).
  { unfold records, page_count. destruct (pdf w) as [pages|].
    - apply (collect_pages off pages 0).
    - constructor. }
  assert (Hnil : forall (f : figure -> bool) l,
             Forall (fun x => f x = false) l -> filter f l = []).
  { intros f l Hl. induction Hl as [|x l Hx _ IH]; simpl; [reflexivity|].
    rewrite Hx. exact IH. }
  split.
  - intros Hoff. apply Hnil. revert Hb. apply Forall_impl.
    intros f (Hr & E). apply Z.leb_gt. lia.
  - intros Hoff.
    assert (Eb : book_figures (records w off) = []).
    { apply Hnil. revert Hb. apply Forall_impl.
      intros f (Hr & E). destruct (Z.gtb_spec (book_page f) 0); [lia|reflexivity]. }
    split; [exact Eb|].
    destruct (stops_early w).
    + apply H.
    + destruct H as (sorted & _ & _ & ->). rewrite Eb. reflexivity.
Qed.

Lemma offset_extremes_witness :
  front_matter_figures (all_figures (final_locals two_pages 0)) = []
  /\ find_figure_pages two_pages 2 = Ok [].
Proof.
  split.
  - apply (proj1 (offset_extremes two_pages 0)). lia.
  - apply (proj2 (offset_extremes two_pages 2)). vm_compute. discriminate.
Defined.

(** X18: when the output file cannot be opened, [find_figure_pages]
    returns the empty list and writes nothing, whatever figures the pages
    have; the figures found are lost with the locals. *)
Theorem unwritable_report_returns_empty w off :
  output_opens w = false ->
  find_figure_pages w off = Ok []
  /\ written (final_locals w off) = []
  /\ all_figures (final_locals w off) = records w off.
Proof.
  intros Ho. destruct (run_view w off) as (fp & wr & E & H).
  unfold stops_early in H. rewrite Ho, orb_true_r in H. destruct H as (-> & ->).
  rewrite E. auto.
Qed.

Lemma unwritable_report_returns_empty_witness :
  find_figure_pages (unwritable two_pages) 0 = Ok []
  /\ length (all_figures (final_locals (unwritable two_pages) 0)) = 3%nat.
Proof.
  destruct (unwritable_report_returns_empty (unwritable two_pages) 0 eq_refl)
    as (H & _ & E).
  split; [exact H|]. rewrite E. reflexivity.
Defined.

End FigureMore.
